(** * convert_aspx_to_html: the ASPX-to-HTML rewriting pipeline

    A shallow embedding of the converter script: the seven compiled patterns, the
    backtracking matcher they run on ([re.search], [re.sub]), the head
    template, the conversion of one file and the driver [main] over a small
    file-system model.

    Python strings are sequences of code points: a character is an [N], a
    text a [list N]. *)

From Stdlib Require Import NArith Ascii String.
From stdpp Require Import base list gmap.

(** ** Characters *)

Local Open Scope N_scope.

(** A string literal of the source, as code points (the source's literals
    that the model spells this way are ASCII). *)
Definition str (s : string) : list N :=
  map N_of_ascii (list_ascii_of_string s).

(** [str.isspace] on one character; [\s] of [re] on [str] patterns and
    [str.strip()] both use this set. *)
Definition isspace (c : N) : bool :=
  ((9 <=? c) && (c <=? 13)) || ((28 <=? c) && (c <=? 32))
  || (c =? 133) || (c =? 160) || (c =? 5760)
  || ((8192 <=? c) && (c <=? 8202))
  || (c =? 8232) || (c =? 8233) || (c =? 8239) || (c =? 8287)
  || (c =? 12288).

Definition is_upper (c : N) : bool := (65 <=? c) && (c <=? 90).
Definition is_lower (c : N) : bool := (97 <=? c) && (c <=? 122).

(** A literal ASCII pattern character [a] against the subject character [c]
    under [re.IGNORECASE] on a [str] pattern: an uncased [a] matches itself;
    a letter matches the characters whose simple lower case is that letter
    (its two ASCII forms, U+0130 for i, U+212A for k) and the equivalents
    [re] adds (U+0131 for i, U+017F for s). *)
Definition ieq (a c : N) : bool :=
  let lo := if is_upper a then a + 32 else a in
  if is_lower lo then
    (c =? lo) || (c =? lo - 32)
    || ((lo =? 105) && ((c =? 304) || (c =? 305)))
    || ((lo =? 115) && (c =? 383))
    || ((lo =? 107) && (c =? 8490))
  else c =? a.

Definition is_not (a c : N) : bool := negb (c =? a).
Definition any_char (_ : N) : bool := true.

Local Close Scope N_scope.

(** ** The matcher *)

(** The patterns of the program are sequences of single characters (or
    classes), repetitions of a single class with a lower bound and no upper
    bound, greedy or lazy, and the brackets of capture group 1. *)
Inductive node : Type :=
  | One (p : N → bool)
  | Rep (greedy : bool) (lo : nat) (p : N → bool)
  | Open
  | Close.

(** A successful match from a position: the text left after it and group 1. *)
Record rmatch : Type := Match { m_g1 : option (list N); m_rest : list N }.

(** Greedy repetition followed by the continuation [k]: as many characters
    as possible first, then one fewer on failure, down to [lo]. *)
Fixpoint rep_greedy {A} (p : N → bool) (k : list N → option A)
    (lo : nat) (s : list N) : option A :=
  match s with
  | c :: s' =>
      if p c then
        match rep_greedy p k (Nat.pred lo) s' with
        | Some r => Some r
        | None => match lo with O => k s | S _ => None end
        end
      else match lo with O => k s | S _ => None end
  | [] => match lo with O => k s | S _ => None end
  end.

(** Lazy repetition: [lo] characters, then the continuation; one more
    character each time the continuation fails. *)
Fixpoint rep_lazy {A} (p : N → bool) (k : list N → option A)
    (lo : nat) (s : list N) : option A :=
  match lo with
  | O =>
      match k s with
      | Some r => Some r
      | None =>
          match s with
          | c :: s' => if p c then rep_lazy p k O s' else None
          | [] => None
          end
      end
  | S n =>
      match s with
      | c :: s' => if p c then rep_lazy p k n s' else None
      | [] => None
      end
  end.

(** [mt r o g s]: match the pattern [r] at the head of [s]; [o] is the text
    from where group 1 was opened, [g] the group captured so far. *)
Fixpoint mt (r : list node) (o : list N) (g : option (list N))
    (s : list N) : option rmatch :=
  match r with
  | [] => Some (Match g s)
  | One p :: r' =>
      match s with
      | c :: s' => if p c then mt r' o g s' else None
      | [] => None
      end
  | Rep true lo p :: r' => rep_greedy p (mt r' o g) lo s
  | Rep false lo p :: r' => rep_lazy p (mt r' o g) lo s
  | Open :: r' => mt r' s g s
  | Close :: r' => mt r' o (Some (take (length o - length s) o)) s
  end.

Definition match_at (r : list node) (s : list N) : option rmatch :=
  mt r [] None s.

(** The text a match consumed, [m.group(0)]. *)
Definition matched (s : list N) (m : rmatch) : list N :=
  take (length s - length (m_rest m)) s.

(** [pattern.search(s)]: the match at the leftmost position that has one,
    with the text before it. *)
Fixpoint search (r : list node) (s : list N) : option (list N * rmatch) :=
  match match_at r s with
  | Some m => Some ([], m)
  | None =>
      match s with
      | [] => None
      | c :: s' =>
          match search r s' with
          | Some (pre, m) => Some (c :: pre, m)
          | None => None
          end
      end
  end.

(** [pattern.sub(repl, s)] with a replacement function: leftmost matches,
    left to right, none overlapping; [skip] counts the characters of the
    current match still to be passed over.  A match of no character leaves
    its replacement and the scan moves on by one character. *)
Fixpoint sub_from (r : list node) (repl : list N → rmatch → list N)
    (skip : nat) (s : list N) : list N :=
  match s with
  | [] =>
      match skip, match_at r [] with
      | O, Some m => repl [] m
      | _, _ => []
      end
  | c :: s' =>
      match skip with
      | S n => sub_from r repl n s'
      | O =>
          match match_at r s with
          | Some m =>
              match length s - length (m_rest m) with
              | O => repl [] m ++ c :: sub_from r repl O s'
              | S n => repl (matched s m) m ++ sub_from r repl n s'
              end
          | None => c :: sub_from r repl O s'
          end
      end
  end.

Definition sub (r : list node) (repl : list N → rmatch → list N)
    (s : list N) : list N :=
  sub_from r repl O s.

(** ** Built-in string methods *)

Fixpoint lstrip (s : list N) : list N :=
  match s with
  | c :: s' => if isspace c then lstrip s' else s
  | [] => []
  end.

Definition rstrip (s : list N) : list N := rev (lstrip (rev s)).

(** [s.strip()] *)
Definition strip (s : list N) : list N := rstrip (lstrip s).

Fixpoint starts_with (old s : list N) : bool :=
  match old, s with
  | [], _ => true
  | a :: old', c :: s' => N.eqb c a && starts_with old' s'
  | _ :: _, [] => false
  end.

Fixpoint replace_from (old new : list N) (skip : nat) (s : list N) : list N :=
  match s with
  | [] => []
  | c :: s' =>
      match skip with
      | S n => replace_from old new n s'
      | O =>
          if starts_with old s
          then new ++ replace_from old new (Nat.pred (length old)) s'
          else c :: replace_from old new O s'
      end
  end.

(** [s.replace(old, new)]: every occurrence, left to right, none
    overlapping; an empty [old] puts [new] around every character. *)
Definition replace (old new s : list N) : list N :=
  match old with
  | [] => new ++ flat_map (λ c, c :: new) s
  | _ :: _ => replace_from old new O s
  end.

(** ** The patterns *)

Definition lit (s : string) : list node :=
  map (λ a, One (N.eqb a)) (str s).

(** A literal under [re.IGNORECASE]. *)
Definition ilit (s : string) : list node :=
  map (λ a, One (ieq a)) (str s).

Definition ws_star : node := Rep true 0 isspace.
Definition ws_plus : node := Rep true 1 isspace.

(** [<%@\s*Page\s+[^%]*%>], IGNORECASE | DOTALL *)
Definition PAGE_DIRECTIVE_RE : list node :=
  ilit "<%@" ++ [ws_star] ++ ilit "Page" ++ [ws_plus]
  ++ [Rep true 0 (is_not 37%N)] ++ ilit "%>".

(** [Title\s*=\s*Q([^Q]+)Q] where Q is the double quote, IGNORECASE *)
Definition TITLE_RE : list node :=
  ilit "Title" ++ [ws_star] ++ ilit "=" ++ [ws_star] ++ [One (ieq 34%N)]
  ++ [Open; Rep true 1 (is_not 34%N); Close] ++ [One (ieq 34%N)].

(** [<asp:Content[^>]*>], IGNORECASE *)
Definition ASP_CONTENT_START_RE : list node :=
  ilit "<asp:Content" ++ [Rep true 0 (is_not 62%N)] ++ ilit ">".

(** [</asp:Content>], IGNORECASE *)
Definition ASP_CONTENT_END_RE : list node := ilit "</asp:Content>".

(** One separator line of a banner, [<%\s*[-]{3,}\s*%>]. *)
Definition separator : list node :=
  ilit "<%" ++ [ws_star] ++ [Rep true 3 (N.eqb 45%N)] ++ [ws_star] ++ ilit "%>".

(** What follows group 1 in the banner pattern:
    [\s*--\s*%>\s*<%\s*[-]{3,}\s*%>]. *)
Definition banner_tail : list node :=
  [Close] ++ [ws_star] ++ ilit "--" ++ [ws_star] ++ ilit "%>" ++ [ws_star]
  ++ separator.

(** The banner pattern, IGNORECASE | DOTALL | VERBOSE (the white space of
    the pattern's source is not part of it):
    [<%\s*[-]{3,}\s*%>\s*<%\s*--\s*(.*?)\s*--\s*%>\s*<%\s*[-]{3,}\s*%>]. *)
Definition THREE_LINE_HEADER_RE : list node :=
  separator ++ [ws_star] ++ ilit "<%" ++ [ws_star] ++ ilit "--" ++ [ws_star]
  ++ [Open; Rep false 0 any_char] ++ banner_tail.

(** [<%--.*?--%>], DOTALL *)
Definition ASP_COMMENT_RE : list node :=
  lit "<%--" ++ [Rep false 0 any_char] ++ lit "--%>".

(** [<%[^@].*?%>], DOTALL *)
Definition ASP_SERVER_BLOCK_RE : list node :=
  lit "<%" ++ [One (is_not 64%N)] ++ [Rep false 0 any_char] ++ lit "%>".

(** ** The fixed head *)

Definition NL : string := String (ascii_of_nat 10) EmptyString.
Definition QT : string := String (ascii_of_nat 34) EmptyString.

Definition line (s : string) : string := (s ++ NL)%string.

Definition COMMON_HEAD_TEMPLATE : list N := str (
  line "<head>" ++
  line ("    <meta charset=" ++ QT ++ "UTF-8" ++ QT ++ ">") ++
  line "    <title>{{TITLE}}</title>" ++
  line "" ++
  line "    <!-- CSS -->" ++
  line ("    <link rel=" ++ QT ++ "stylesheet" ++ QT ++ " href=" ++ QT ++ "Content/jquery-ui.min.css" ++ QT ++ ">") ++
  line ("    <link rel=" ++ QT ++ "stylesheet" ++ QT ++ " href=" ++ QT ++ "Content/tabulator/tabulator.min.css" ++ QT ++ ">") ++
  line "" ++
  line "    <!-- JS base -->" ++
  line ("    <script src=" ++ QT ++ "Scripts/jquery-3.7.1.min.js" ++ QT ++ "></script>") ++
  line ("    <script src=" ++ QT ++ "Scripts/jquery-ui.min.js" ++ QT ++ "></script>") ++
  line "" ++
  line "    <!-- FontAwesome -->" ++
  line ("    <script src=" ++ QT ++ "Scripts/FontAwesome/fontawesome.min.js" ++ QT ++ "></script>") ++
  line ("    <script src=" ++ QT ++ "Scripts/FontAwesome/solid.min.js" ++ QT ++ "></script>") ++
  line ("    <script src=" ++ QT ++ "Scripts/FontAwesome/regular.min.js" ++ QT ++ "></script>") ++
  line "" ++
  line "    <!-- App common -->" ++
  line ("    <script src=" ++ QT ++ "Scripts/mvp.js" ++ QT ++ "></script>") ++
  line "</head>")%string.

(** ** The conversion of one text *)

Definition DEFAULT_TITLE : list N := str "Untitled Page".

(** The title a page directive block gives. *)
Definition title_in (block : list N) : list N :=
  match search TITLE_RE block with
  | Some (_, title_match) =>
      match m_g1 title_match with
      | Some title => title
      | None => DEFAULT_TITLE
      end
  | None => DEFAULT_TITLE
  end.

(** The title, from the first page directive of the text. *)
Definition extract_title (t : list N) : list N :=
  match search PAGE_DIRECTIVE_RE t with
  | Some (pre, page_match) =>
      title_in (matched (drop (length pre) t) page_match)
  | None => DEFAULT_TITLE
  end.

Definition erase (_ : list N) (_ : rmatch) : list N := [].

Definition header_replacer (_ : list N) (m : rmatch) : list N :=
  str "<!-- ----------- " ++ strip (default [] (m_g1 m))
  ++ str " ----------- -->".

Definition remove_page_directives : list N → list N :=
  sub PAGE_DIRECTIVE_RE erase.
Definition normalize_banners : list N → list N :=
  sub THREE_LINE_HEADER_RE header_replacer.
Definition remove_content_tags (t : list N) : list N :=
  sub ASP_CONTENT_END_RE erase (sub ASP_CONTENT_START_RE erase t).
Definition remove_server_code (t : list N) : list N :=
  sub ASP_SERVER_BLOCK_RE erase (sub ASP_COMMENT_RE erase t).

(** The rewrites in the order of the source, up to the final trim. *)
Definition rewrite_text (t : list N) : list N :=
  remove_server_code (remove_content_tags
    (normalize_banners (remove_page_directives t))).

Definition body_of (t : list N) : list N := strip (rewrite_text t).

Definition head_of (title : list N) : list N :=
  replace (str "{{TITLE}}") title COMMON_HEAD_TEMPLATE.

Definition render (head body : list N) : list N :=
  str (line "<!DOCTYPE html>" ++ line ("<html lang=" ++ QT ++ "ja" ++ QT ++ ">"))
  ++ head ++ str (NL ++ line "<body>" ++ NL)
  ++ body ++ str (NL ++ NL ++ line "</body>" ++ line "</html>").

(** The text [convert_aspx_to_html] writes for the text it read. *)
Definition html_of (t : list N) : list N :=
  render (head_of (extract_title t)) (body_of t).

(** ** The driver *)

(** A path is the list of its components, the innermost first: [n :: d] is
    the entry named [n] of the directory [d], and [[]] is the root. *)
Inductive entry : Type :=
  | Dir
  | File (content : list N).

(** The state the script acts on: the file system and the lines printed.
    A file holds the text that decoding it as UTF-8 gives. *)
Record world : Type := World {
  w_fs : gmap (list (list N)) entry;
  w_out : list (list N)
}.

Inductive exn : Type :=
  | ValueError (msg : list N)
  | FileExistsError
  | FileNotFoundError
  | NotADirectoryError
  | IsADirectoryError.

(** A step of the script: it raises or returns, and leaves a state. *)
Definition M (A : Type) : Type := world → (exn + A) * world.

Definition raise {A} (e : exn) : M A := λ w, (inl e, w).

#[global] Instance M_ret : MRet M := λ A a w, (inr a, w).
#[global] Instance M_bind : MBind M := λ A B f m w,
  match m w with
  | (inl e, w') => (inl e, w')
  | (inr a, w') => f a w'
  end.

Definition fs_lookup (fs : gmap (list (list N)) entry) (p : list (list N))
    : option entry :=
  match p with
  | [] => Some Dir
  | _ :: _ => fs !! p
  end.

(** [p.exists()] *)
Definition path_exists (p : list (list N)) : M bool :=
  λ w, (inr (match fs_lookup (w_fs w) p with Some _ => true | None => false end), w).

(** [p.is_dir()] *)
Definition is_dir (p : list (list N)) : M bool :=
  λ w, (inr (match fs_lookup (w_fs w) p with Some Dir => true | _ => false end), w).

(** [p.mkdir(parents=True, exist_ok=True)] on the file system: an existing
    directory is left alone, an existing file is an error, and a missing
    parent is made first. *)
Fixpoint mkdir_parents (p : list (list N)) (fs : gmap (list (list N)) entry)
    : exn + gmap (list (list N)) entry :=
  match p with
  | [] => inr fs
  | _ :: parent =>
      match fs !! p with
      | Some Dir => inr fs
      | Some (File _) => inl FileExistsError
      | None =>
          match fs_lookup fs parent with
          | Some Dir => inr (<[p := Dir]> fs)
          | Some (File _) => inl NotADirectoryError
          | None =>
              match mkdir_parents parent fs with
              | inl e => inl e
              | inr fs' => inr (<[p := Dir]> fs')
              end
          end
      end
  end.

Definition mkdir (p : list (list N)) : M unit :=
  λ w, match mkdir_parents p (w_fs w) with
       | inl e => (inl e, w)
       | inr fs' => (inr (), World fs' (w_out w))
       end.

Definition ends_with (suffix s : list N) : bool :=
  starts_with (rev suffix) (rev s).

(** Is [p] an entry of the directory [d] with a name that ends in [.aspx]? *)
Definition aspx_in (d p : list (list N)) : bool :=
  match p with
  | n :: d' => bool_decide (d' = d) && ends_with (str ".aspx") n
  | [] => false
  end.

(** The entries of [d] whose name ends in [.aspx]. *)
Definition aspx_files (fs : gmap (list (list N)) entry) (d : list (list N))
    : list (list (list N)) :=
  List.filter (aspx_in d) (map fst (map_to_list fs)).

(** [d.glob(PAT)] for the pattern of the script, a star followed by
    [.aspx]. *)
Definition glob_aspx (d : list (list N)) : M (list (list (list N))) :=
  λ w, (inr (aspx_files (w_fs w) d), w).

(** [p.read_text(encoding=utf-8)] *)
Definition read_text (p : list (list N)) : M (list N) :=
  λ w, match fs_lookup (w_fs w) p with
       | Some (File c) => (inr c, w)
       | Some Dir => (inl IsADirectoryError, w)
       | None => (inl FileNotFoundError, w)
       end.

(** [p.write_text(data, encoding=utf-8)] *)
Definition write_text (p : list (list N)) (data : list N) : M unit :=
  λ w, match p with
       | [] => (inl IsADirectoryError, w)
       | _ :: parent =>
           match fs_lookup (w_fs w) parent, w_fs w !! p with
           | Some Dir, Some Dir => (inl IsADirectoryError, w)
           | Some Dir, _ => (inr (), World (<[p := File data]> (w_fs w)) (w_out w))
           | Some (File _), _ => (inl NotADirectoryError, w)
           | None, _ => (inl FileNotFoundError, w)
           end
       end.

Definition print (l : list N) : M unit :=
  λ w, (inr (), World (w_fs w) (w_out w ++ [l])).

Fixpoint rfind (a : N) (s : list N) : option nat :=
  match s with
  | [] => None
  | c :: s' =>
      match rfind a s' with
      | Some i => Some (S i)
      | None => if N.eqb c a then Some O else None
      end
  end.

(** [p.stem] of a file name: the name without its last suffix. *)
Definition stem (name : list N) : list N :=
  match rfind 46%N name with
  | Some i =>
      if (0 <? i)%nat && (i <? length name - 1)%nat then take i name else name
  | None => name
  end.

Definition path_name (p : list (list N)) : list N := default [] (head p).

(** [str(p)] *)
Definition path_str (p : list (list N)) : list N :=
  match p with
  | [] => str "/"
  | _ :: _ => concat (map (λ n, str "/" ++ n) (rev p))
  end.

Definition convert_aspx_to_html (aspx_path output_dir : list (list N)) : M unit :=
  t ← read_text aspx_path;
  let output_path := (stem (path_name aspx_path) ++ str ".html") :: output_dir in
  write_text output_path (html_of t);;
  print (str "Converted: " ++ path_name aspx_path ++ str " -> "
         ++ path_name output_path).

Fixpoint for_each {A} (l : list A) (f : A → M unit) : M unit :=
  match l with
  | [] => mret ()
  | a :: l' => f a;; for_each l' f
  end.

(** The message of the [ValueError] of [main], before the path. *)
Definition BAD_INPUT_DIR : list N :=
  [20837; 21147; 12487; 12451; 12524; 12463; 12488; 12522; 12364; 19981;
   27491; 12391; 12377; 58; 32]%N.

(** The line [main] prints when no file matches. *)
Definition NO_ASPX_FOUND : list N :=
  [97; 115; 112; 120; 32; 12501; 12449; 12452; 12523; 12364; 35211; 12388;
   12363; 12426; 12414; 12379; 12435; 12391; 12375; 12383; 12290]%N.

(** [main], from the two parsed arguments on. *)
Definition main (input_dir output_dir : list (list N)) : M unit :=
  e ← path_exists input_dir;
  d ← is_dir input_dir;
  if negb e || negb d then raise (ValueError (BAD_INPUT_DIR ++ path_str input_dir))
  else
    mkdir output_dir;;
    aspx_files ← glob_aspx input_dir;
    match aspx_files with
    | [] => print NO_ASPX_FOUND
    | _ :: _ => for_each aspx_files (λ f, convert_aspx_to_html f output_dir)
    end.

(** ** Vocabulary of the statements *)

Fixpoint take_while (p : N → bool) (s : list N) : list N :=
  match s with
  | c :: s' => if p c then c :: take_while p s' else []
  | [] => []
  end.

Fixpoint drop_while (p : N → bool) (s : list N) : list N :=
  match s with
  | c :: s' => if p c then drop_while p s' else s
  | [] => []
  end.

(** A necessary condition for a pattern to match at the head of [s], read
    off the pattern's leading characters. *)
Fixpoint can_start (r : list node) (s : list N) : bool :=
  match r with
  | [] => true
  | One p :: r' =>
      match s with
      | c :: s' => p c && can_start r' s'
      | [] => false
      end
  | Rep _ lo p :: r' =>
      match s with
      | c :: _ => p c || (bool_decide (lo = O) && can_start r' s)
      | [] => bool_decide (lo = O) && can_start r' s
      end
  | Open :: r' | Close :: r' => can_start r' s
  end.

(** What a successful match looks like: the pattern read as a description
    of the text consumed, without the order in which the matcher tries the
    alternatives. *)
Fixpoint sem (r : list node) (o : list N) (g : option (list N))
    (s : list N) (m : rmatch) : Prop :=
  match r with
  | [] => m = Match g s
  | One p :: r' => ∃ c s', s = c :: s' ∧ p c = true ∧ sem r' o g s' m
  | Rep _ lo p :: r' =>
      ∃ w s', s = w ++ s' ∧ forallb p w = true ∧ lo ≤ length w
              ∧ sem r' o g s' m
  | Open :: r' => sem r' s g s m
  | Close :: r' => sem r' o (Some (take (length o - length s) o)) s m
  end.

(** No match of [r] begins inside [u] when [u] is followed by [v]. *)
Definition unmatched (r : list node) (u v : list N) : Prop :=
  ∀ i, i < length u → match_at r (drop i u ++ v) = None.


Definition blank (w : list N) : bool := forallb isspace w.
Definition free_of (a : N) (s : list N) : bool := forallb (is_not a) s.

(** [T] is the literal [l] up to case, as [re.IGNORECASE] compares. *)
Fixpoint ilike (l T : list N) : bool :=
  match l, T with
  | [], [] => true
  | a :: l', c :: T' => ieq a c && ilike l' T'
  | _, _ => false
  end.

(** The first character of [s], if any, is not white space. *)
Definition tight_head (s : list N) : bool :=
  match s with
  | c :: _ => negb (isspace c)
  | [] => true
  end.

(** *** Page directives and title attributes, as the specification words them *)

(** A page directive block: the opening marker, the word Page in any case,
    white space, attributes without a percent sign, the closing marker. *)
Definition page_block (D : list N) : Prop :=
  ∃ w1 T c b,
    D = str "<%@" ++ w1 ++ T ++ c :: b ++ str "%>"
    ∧ blank w1 = true ∧ ilike (str "Page") T = true
    ∧ isspace c = true ∧ free_of 37 b = true.

(** [s] begins with a page directive block. *)
Definition page_starts (s : list N) : Prop :=
  ∃ D rest, page_block D ∧ s = D ++ rest.

(** [D] is the first page directive block of [t], between [pre] and
    [post]. *)
Definition first_block (t pre D post : list N) : Prop :=
  t = pre ++ D ++ post ∧ page_block D
  ∧ ∀ j, j < length pre → ¬ page_starts (drop j t).

(** [s] begins with a title attribute of value [v]: the word Title in any
    case, an equals sign with optional white space around it, and the
    non-empty value between double quotes. *)
Definition title_attr (v s : list N) : Prop :=
  ∃ T w3 w4 rest,
    s = T ++ w3 ++ 61%N :: w4 ++ 34%N :: v ++ 34%N :: rest
    ∧ ilike (str "Title") T = true ∧ blank w3 = true ∧ blank w4 = true
    ∧ v ≠ [] ∧ free_of 34 v = true.

(** [s] begins with a title attribute whose value is empty. *)
Definition empty_title_attr (s : list N) : Prop :=
  ∃ T w3 w4 rest,
    s = T ++ w3 ++ 61%N :: w4 ++ 34%N :: 34%N :: rest
    ∧ ilike (str "Title") T = true ∧ blank w3 = true ∧ blank w4 = true.

(** The head template before and after its title slot. *)
Definition HEAD_BEFORE : list N := str (
  line "<head>" ++
  line ("    <meta charset=" ++ QT ++ "UTF-8" ++ QT ++ ">") ++
  "    <title>")%string.

Definition HEAD_AFTER : list N :=
  drop (length HEAD_BEFORE + length (str "{{TITLE}}")) COMMON_HEAD_TEMPLATE.

(** The fixed text of the output before the head, between head and body,
    and after the body. *)
Definition DOC_OPEN : list N :=
  str (line "<!DOCTYPE html>" ++ line ("<html lang=" ++ QT ++ "ja" ++ QT ++ ">")).
Definition BODY_OPEN : list N := str (NL ++ line "<body>" ++ NL).
Definition DOC_CLOSE : list N :=
  str (NL ++ NL ++ line "</body>" ++ line "</html>").



(** The output for a title and a body. *)
Definition page_with (title body : list N) : list N :=
  DOC_OPEN ++ (HEAD_BEFORE ++ title ++ HEAD_AFTER)
  ++ BODY_OPEN ++ body ++ DOC_CLOSE.

Definition has_match (r : list node) (s : list N) : bool :=
  match match_at r s with
  | Some _ => true
  | None => false
  end.

(** No match of [r] begins at any of the first [n] positions of [s]. *)
Definition none_before (r : list node) (n : nat) (s : list N) : bool :=
  forallb (λ j, negb (has_match r (drop j s))) (seq 0 n).

(** *** The claims on titles, as they are worded *)

(** Any page directive block of the text with the attribute text
    Title=Q X Q (Q the double quote) makes [X] the title. *)
Definition every_title_is_output (t X : list N) : Prop :=
  (∃ pre D post i rest,
      t = pre ++ D ++ post ∧ page_block D
      ∧ drop i D = str "Title=" ++ 34%N :: X ++ 34%N :: rest) →
  extract_title t = X.

(** An empty title attribute in the first page directive block gives the
    default title. *)
Definition empty_title_means_default (t : list N) : Prop :=
  (∃ pre D post i, first_block t pre D post ∧ empty_title_attr (drop i D)) →
  extract_title t = DEFAULT_TITLE.

(** *** The claim on an input directory without matching files, as worded *)

(** With an input directory that holds no matching file, [main] returns
    normally, prints the notice and writes no file. *)
Definition empty_input_is_quiet (w : world)
    (input_dir output_dir : list (list N)) : Prop :=
  fs_lookup (w_fs w) input_dir = Some Dir →
  aspx_files (w_fs w) input_dir = [] →
  ∃ w', main input_dir output_dir w = (inr (), w')
        ∧ w_out w' = w_out w ++ [NO_ASPX_FOUND]
        ∧ ∀ p c, w_fs w' !! p = Some (File c) ↔ w_fs w !! p = Some (File c).

(** *** Directives, content tags and banners, as the specification words them *)


(** The patterns the rewriting steps substitute. *)
Definition REWRITE_PATTERNS : list (list node) :=
  [PAGE_DIRECTIVE_RE; THREE_LINE_HEADER_RE; ASP_CONTENT_START_RE;
   ASP_CONTENT_END_RE; ASP_COMMENT_RE; ASP_SERVER_BLOCK_RE].

(** A match of [r] begins with the character [<]. *)
Definition opens_with_lt (r : list node) : Prop :=
  ∀ c s, c ≠ 60%N → can_start r (c :: s) = false.

(** No match of [r] begins with [<] followed by [c2]. *)
Definition second_bad (r : list node) (c2 : N) : Prop :=
  ∀ s, can_start r (60%N :: c2 :: s) = false.

(** An opening content tag: the tag name in any case, attributes without
    [>], and [>]. *)
Definition content_open (T attrs O : list N) : Prop :=
  O = T ++ attrs ++ [62%N] ∧ ilike (str "<asp:Content") T = true
  ∧ free_of 62 attrs = true.

(** A closing content tag, in any case. *)
Definition content_close (C : list N) : Prop :=
  ilike (str "</asp:Content>") C = true.

(** A separator line of a banner: the server delimiters around three
    dashes or more, with optional white space. *)
Definition sep_line (S : list N) : Prop :=
  ∃ w d w',
    S = str "<%" ++ w ++ d ++ w' ++ str "%>"
    ∧ blank w = true ∧ 3 ≤ length d ∧ forallb (N.eqb 45) d = true
    ∧ blank w' = true.

(** The end of a banner behind its text: the closing delimiter of the
    server comment and the second separator. *)
Definition banner_close (we wf S2 : list N) : list N :=
  str "--" ++ we ++ str "%>" ++ wf ++ S2.

(** A three-part banner around the text [x]: a separator, a server comment
    holding [x], a separator, with white space [wa], [wb], [we], [wf]
    between the parts and inside the delimiters. *)
Definition banner_text (S1 wa wb x we wf S2 : list N) : list N :=
  S1 ++ wa ++ str "<%" ++ wb ++ str "--" ++ x ++ banner_close we wf S2.

Definition banner_parts (S1 wa wb we wf S2 : list N) : Prop :=
  sep_line S1 ∧ sep_line S2
  ∧ blank wa = true ∧ blank wb = true ∧ blank we = true ∧ blank wf = true.

(** [s] begins with the end of a banner. *)
Definition closing_at (s : list N) : Prop :=
  ∃ w1 we wf S2 rest,
    s = w1 ++ banner_close we wf S2 ++ rest
    ∧ blank w1 = true ∧ blank we = true ∧ blank wf = true ∧ sep_line S2.

(** The end of the banner is the first one behind its text: no end of a
    banner begins where text of [x] other than white space is still to
    come. *)
Definition closes_first (x close : list N) : Prop :=
  ∀ j, blank (drop j x) = false → ¬ closing_at (drop j x ++ close).

(** The HTML comment a banner around the text [x] becomes. *)
Definition banner_comment (x : list N) : list N :=
  str "<!-- ----------- " ++ strip x ++ str " ----------- -->".

(** *** The claims on the rewriting steps, as they are worded *)




(** ** Vocabulary of the further properties *)

(** *** The driver's files *)

(** The path [convert_aspx_to_html] writes for the source path [f]. *)
Definition output_path (f output_dir : list (list N)) : list (list N) :=
  (stem (path_name f) ++ str ".html") :: output_dir.

(** The line it prints for [f]. *)
Definition converted_line (f output_dir : list (list N)) : list N :=
  str "Converted: " ++ path_name f ++ str " -> "
  ++ path_name (output_path f output_dir).

Definition is_file (fs : gmap (list (list N)) entry) (p : list (list N))
    : bool :=
  match fs_lookup fs p with Some (File _) => true | _ => false end.

Definition is_directory (fs : gmap (list (list N)) entry) (p : list (list N))
    : bool :=
  match fs_lookup fs p with Some Dir => true | _ => false end.


(** The entry the nearest existing ancestor of [p] has, [p] included; the
    root is a directory. *)
Fixpoint nearest (fs : gmap (list (list N)) entry) (p : list (list N))
    : entry :=
  match p with
  | [] => Dir
  | _ :: parent =>
      match fs !! p with
      | Some e => e
      | None => nearest fs parent
      end
  end.

(** What a run may do to the state: directories stay, a file stays as it
    is or is a file of [output_dir] with a name in [.html] that is written
    anew, and the lines printed before stay. *)
Definition only_outputs (output_dir : list (list N)) (w w' : world) : Prop :=
  (∀ p, w_fs w !! p = Some Dir → w_fs w' !! p = Some Dir)
  ∧ (∀ p c, w_fs w !! p = Some (File c) →
       w_fs w' !! p = Some (File c)
       ∨ ∃ n c', p = (n ++ str ".html") :: output_dir
                 ∧ w_fs w' !! p = Some (File c'))
  ∧ w_out w `prefix_of` w_out w'.

(** *** Plain text and closing delimiters *)

(** [s] begins with the literal [l] up to case. *)
Fixpoint istarts (l s : list N) : bool :=
  match l, s with
  | [], _ => true
  | a :: l', c :: s' => ieq a c && istarts l' s'
  | _ :: _, [] => false
  end.

(** Neither a server delimiter nor a content tag begins at the head of
    [s]. *)
Definition plain_at (s : list N) : bool :=
  negb (starts_with (str "<%") s)
  && negb (istarts (str "<asp:Content") s)
  && negb (istarts (str "</asp:Content>") s).

(** Neither begins anywhere in [t]. *)
Fixpoint plain (t : list N) : bool :=
  match t with
  | [] => true
  | _ :: t' => plain_at t && plain t'
  end.

(** The first place where [close] begins in [x] followed by [close] is the
    end of [x]. *)
Definition closes_at_end (close x : list N) : bool :=
  forallb (λ j, negb (starts_with close (drop j (x ++ close))))
          (seq 0 (length x)).

(** [y], the text behind an opening server delimiter, begins like a
    separator line of a banner: optional white space, then three dashes
    or more. *)
Definition opens_separator (y : list N) : bool :=
  3 <=? length (take_while (N.eqb 45) (drop_while isspace y)).

(** No rewriting step finds a match that begins in [u], whatever follows
    [u]. *)
Definition passed_over (u : list N) : Prop :=
  ∀ r v, r ∈ REWRITE_PATTERNS → unmatched r u v.

(** Neither a closing server delimiter nor a content tag begins anywhere
    in [t]. *)
Fixpoint unclosed (t : list N) : bool :=
  match t with
  | [] => true
  | _ :: t' =>
      negb (starts_with (str "%>") t)
      && negb (istarts (str "<asp:Content") t)
      && negb (istarts (str "</asp:Content>") t)
      && unclosed t'
  end.

(** * The matcher *)

Section Spans.
Variable p : N → bool.

Lemma take_drop_while s : take_while p s ++ drop_while p s = s.
Proof. induction s as [|c s IH]; simpl; [done|]. destruct (p c); simpl; congruence. Qed.

Lemma forallb_take_while s : forallb p (take_while p s) = true.
Proof. induction s as [|c s IH]; simpl; [done|]. destruct (p c) eqn:E; simpl; [by rewrite E|done]. Qed.

Lemma drop_while_app u x :
  forallb p u = true → drop_while p (u ++ x) = drop_while p x.
Proof.
  induction u as [|c u IH]; simpl; [done|].
  intros [Hc Hu]%andb_prop. by rewrite Hc, IH.
Qed.

Lemma take_while_app u x :
  forallb p u = true → take_while p (u ++ x) = u ++ take_while p x.
Proof.
  induction u as [|c u IH]; simpl; [done|].
  intros [Hc Hu]%andb_prop. by rewrite Hc, IH.
Qed.

(** A run of [p] ends at the first character that fails [p]: two ways of
    cutting one text there agree. *)
Lemma span_unique u u' a a' x x' :
  forallb p u = true → forallb p u' = true → p a = false → p a' = false →
  u ++ a :: x = u' ++ a' :: x' → u = u' ∧ a = a' ∧ x = x'.
Proof.
  revert u'. induction u as [|c u IH]; intros [|c' u']; simpl.
  - intros _ _ _ _ [= -> ->]. done.
  - intros _ [Hc _]%andb_prop Ha _ [= -> _]. congruence.
  - intros [Hc _]%andb_prop _ _ Ha [= -> _]. congruence.
  - intros [_ Hu]%andb_prop [_ Hu']%andb_prop Ha Ha' [= -> E].
    destruct (IH u' Hu Hu' Ha Ha' E) as (-> & -> & ->). done.
Qed.
End Spans.

Lemma forallb_app_true {A} (p : A → bool) u v :
  forallb p (u ++ v) = true ↔ forallb p u = true ∧ forallb p v = true.
Proof. rewrite forallb_app, andb_true_iff. done. Qed.

Lemma drop_while_weaker (p q : N → bool) s :
  (∀ c, p c = true → q c = true) →
  drop_while q (drop_while p s) = drop_while q s.
Proof.
  intros Hpq. induction s as [|c s IH]; simpl; [done|].
  destruct (p c) eqn:E.
  - rewrite IH. by rewrite (Hpq c E).
  - done.
Qed.

Section Repetition.
Context {A : Type}.
Variable p : N → bool.
Variable k : list N → option A.

(** The greedy repetition tries the longest run first. *)
Lemma rep_greedy_longest lo s r :
  lo ≤ length (take_while p s) → k (drop_while p s) = Some r →
  rep_greedy p k lo s = Some r.
Proof.
  revert lo. induction s as [|c s IH]; intros lo; simpl.
  - intros Hlo Hk. assert (lo = 0) as -> by lia. done.
  - destruct (p c) eqn:E; simpl.
    + intros Hlo Hk. rewrite (IH (Nat.pred lo)); [done|lia|done].
    + intros Hlo Hk. assert (lo = 0) as -> by lia. done.
Qed.

(** When the continuation refuses every text that begins with a character
    of the class, the repetition never gives a character back. *)
Lemma rep_greedy_reject lo s :
  (∀ c s', p c = true → k (c :: s') = None) →
  rep_greedy p k lo s =
    if bool_decide (lo ≤ length (take_while p s))
    then k (drop_while p s) else None.
Proof.
  intros Hrej. revert lo. induction s as [|c s IH]; intros lo; simpl.
  - destruct lo; [done|]. rewrite bool_decide_eq_false_2 by lia. done.
  - destruct (p c) eqn:E; simpl.
    + rewrite IH. case_bool_decide as H1.
      * rewrite bool_decide_eq_true_2 by lia.
        destruct (k (drop_while p s)); [done|].
        destruct lo; [by apply Hrej|done].
      * rewrite bool_decide_eq_false_2 by lia. destruct lo; [lia|done].
    + destruct lo; [done|]. rewrite bool_decide_eq_false_2 by lia. done.
Qed.

Lemma rep_greedy_sound lo s r :
  rep_greedy p k lo s = Some r →
  ∃ w s', s = w ++ s' ∧ forallb p w = true ∧ lo ≤ length w ∧ k s' = Some r.
Proof.
  revert lo. induction s as [|c s IH]; intros lo; simpl.
  - destruct lo; [|done]. intros H. exists [], []. simpl. auto with lia.
  - destruct (p c) eqn:E.
    + destruct (rep_greedy p k (Nat.pred lo) s) eqn:R.
      * intros [= ->]. destruct (IH _ R) as (w & s' & -> & Hw & Hlo & Hk).
        exists (c :: w), s'. simpl. rewrite E, Hw. auto with lia.
      * destruct lo; [|done]. intros H. exists [], (c :: s). simpl. auto with lia.
    + destruct lo; [|done]. intros H. exists [], (c :: s). simpl. auto with lia.
Qed.

Lemma rep_lazy_sound lo s r :
  rep_lazy p k lo s = Some r →
  ∃ w s', s = w ++ s' ∧ forallb p w = true ∧ lo ≤ length w ∧ k s' = Some r.
Proof.
  revert lo. induction s as [|c s IH]; intros [|lo]; simpl.
  - destruct (k []) eqn:K; [|done]. intros [= ->]. exists [], []. auto.
  - done.
  - destruct (k (c :: s)) eqn:K.
    + intros [= ->]. exists [], (c :: s). simpl. auto with lia.
    + destruct (p c) eqn:E; [|done]. intros R.
      destruct (IH _ R) as (w & s' & -> & Hw & Hlo & Hk).
      exists (c :: w), s'. simpl. rewrite E, Hw. auto with lia.
  - destruct (p c) eqn:E; [|done]. intros R.
    destruct (IH _ R) as (w & s' & -> & Hw & Hlo & Hk).
    exists (c :: w), s'. simpl. rewrite E, Hw. auto with lia.
Qed.

Lemma rep_lazy_here s r : k s = Some r → rep_lazy p k 0 s = Some r.
Proof. intros H. destruct s; simpl; by rewrite H. Qed.

(** The lazy repetition passes over a run at whose every position the
    continuation fails. *)
Lemma rep_lazy_skip u v :
  forallb p u = true → (∀ i, i < length u → k (drop i u ++ v) = None) →
  rep_lazy p k 0 (u ++ v) = rep_lazy p k 0 v.
Proof.
  induction u as [|c u IH]; simpl; [done|].
  intros [Hc Hu]%andb_prop Hk.
  pose proof (Hk 0 ltac:(lia)) as H0. simpl in H0. rewrite H0, Hc.
  apply IH; [done|]. intros i Hi. apply (Hk (S i)). lia.
Qed.
End Repetition.

Lemma mt_sound r : ∀ o g s m, mt r o g s = Some m → sem r o g s m.
Proof.
  induction r as [|[p|[] lo p| |] r IH]; intros o g s m; simpl.
  - by intros [= <-].
  - destruct s as [|c s]; [done|]. destruct (p c) eqn:E; [|done].
    intros H. exists c, s. auto.
  - intros (w & s' & -> & Hw & Hlo & Hk)%rep_greedy_sound. exists w, s'. auto.
  - intros (w & s' & -> & Hw & Hlo & Hk)%rep_lazy_sound. exists w, s'. auto.
  - apply IH.
  - apply IH.
Qed.

Lemma mt_can_start r : ∀ o g s, can_start r s = false → mt r o g s = None.
Proof.
  induction r as [|[p|gr lo p| |] r IH]; intros o g s; simpl.
  - done.
  - destruct s as [|c s]; [done|]. destruct (p c); simpl; [apply IH|done].
  - destruct s as [|c s].
    + destruct lo as [|lo]; simpl.
      * intros H. destruct gr; simpl; by rewrite IH.
      * intros _. by destruct gr.
    + intros [Hp H]%orb_false_elim. destruct lo as [|lo]; simpl in H.
      * destruct gr; simpl; rewrite Hp; by rewrite ?IH.
      * destruct gr; simpl; by rewrite Hp.
  - apply IH.
  - apply IH.
Qed.

Lemma match_can_start r s : can_start r s = false → match_at r s = None.
Proof. apply mt_can_start. Qed.

(** * Searching and substituting *)

Lemma unmatched_nil r v : unmatched r [] v.
Proof. intros i Hi. simpl in Hi. lia. Qed.

Lemma unmatched_cons r c u v :
  match_at r (c :: u ++ v) = None → unmatched r u v → unmatched r (c :: u) v.
Proof. intros H0 Hu [|i] Hi; simpl in *; [done|]. apply Hu. lia. Qed.

Lemma unmatched_cons_inv r c u v :
  unmatched r (c :: u) v → match_at r (c :: u ++ v) = None ∧ unmatched r u v.
Proof.
  intros H. split; [apply (H 0); simpl; lia|].
  intros i Hi. apply (H (S i)). simpl. lia.
Qed.

Lemma unmatched_app r u1 u2 v :
  unmatched r u1 (u2 ++ v) → unmatched r u2 v → unmatched r (u1 ++ u2) v.
Proof.
  induction u1 as [|c u1 IH]; simpl; [done|].
  intros [H0 H1]%unmatched_cons_inv H2. apply unmatched_cons.
  - by rewrite <-app_assoc.
  - by apply IH.
Qed.

Section Search.
Variable r : list node.

Lemma search_found u v m :
  unmatched r u v → match_at r v = Some m → search r (u ++ v) = Some (u, m).
Proof.
  induction u as [|c u IH]; simpl.
  - intros _ Hm. destruct v; simpl; by rewrite Hm.
  - intros [H0 Hu]%unmatched_cons_inv Hm. rewrite H0, (IH Hu Hm). done.
Qed.

Lemma search_Some s pre m :
  search r s = Some (pre, m) →
  ∃ v, s = pre ++ v ∧ match_at r v = Some m ∧ unmatched r pre v.
Proof.
  revert pre. induction s as [|c s IH]; intros pre; simpl.
  - destruct (match_at r []) eqn:E; [|done]. intros [= <- <-].
    exists []. split_and!; [done|done|apply unmatched_nil].
  - destruct (match_at r (c :: s)) eqn:E.
    + intros [= <- <-]. exists (c :: s). split_and!; [done..|apply unmatched_nil].
    + destruct (search r s) as [[pre' m']|] eqn:F; [|done]. intros [= <- <-].
      destruct (IH _ eq_refl) as (v & -> & Hm & Hu).
      exists v. split_and!; [done..|]. by apply unmatched_cons.
Qed.

Lemma search_None s :
  search r s = None ↔ ∀ i, i ≤ length s → match_at r (drop i s) = None.
Proof.
  induction s as [|c s IH]; simpl.
  - destruct (match_at r []) eqn:E; split; try done.
    + intros H. specialize (H 0 ltac:(lia)). by rewrite drop_0, E in H.
    + intros _ i Hi. by rewrite drop_nil.
  - destruct (match_at r (c :: s)) eqn:E.
    + split; [done|]. intros H. specialize (H 0 ltac:(lia)). simpl in H. congruence.
    + destruct (search r s) as [[pre' m']|] eqn:F.
      * split; [done|]. intros H. exfalso.
        assert (Some (pre', m') = None) as [=]. apply IH. intros i Hi.
        apply (H (S i)). lia.
      * split; [|done]. intros _ [|i] Hi; [done|]. simpl.
        apply IH; [done|lia].
Qed.
End Search.

Section Sub.
Variable r : list node.
Variable f : list N → rmatch → list N.

Lemma sub_from_pass u v :
  sub_from r f (length u) (u ++ v) = sub_from r f 0 v.
Proof. induction u as [|c u IH]; simpl; done. Qed.

(** A match at the head of the text is replaced and the scan goes on
    after it. *)
Lemma sub_hit M v m :
  M ≠ [] → match_at r (M ++ v) = Some m → m_rest m = v →
  sub r f (M ++ v) = f M m ++ sub r f v.
Proof.
  intros HM Hm Hrest. destruct M as [|c M]; [done|].
  assert (length ((c :: M) ++ v) - length (m_rest m) = S (length M)) as HL.
  { rewrite Hrest, length_app. simpl. lia. }
  assert (matched ((c :: M) ++ v) m = c :: M) as HM'.
  { unfold matched. rewrite HL. apply (take_app_length' (c :: M)). done. }
  unfold sub. rewrite <-(sub_from_pass M v).
  change ((c :: M) ++ v) with (c :: (M ++ v)) in *.
  cbn [sub_from]. rewrite Hm, HL, HM'. done.
Qed.

Lemma sub_miss c s :
  match_at r (c :: s) = None → sub r f (c :: s) = c :: sub r f s.
Proof. unfold sub. simpl. by intros ->. Qed.

(** The scan copies a stretch in which no match begins. *)
Lemma sub_pass u v : unmatched r u v → sub r f (u ++ v) = u ++ sub r f v.
Proof.
  induction u as [|c u IH]; simpl; [done|].
  intros [H0 Hu]%unmatched_cons_inv. rewrite sub_miss by done. by rewrite IH.
Qed.

Lemma sub_nil : match_at r [] = None → sub r f [] = [].
Proof. unfold sub. simpl. by intros ->. Qed.

Lemma sub_id s :
  unmatched r s [] → match_at r [] = None → sub r f s = s.
Proof.
  intros Hu Hnil. rewrite <-(app_nil_r s) at 1.
  rewrite sub_pass by done. by rewrite sub_nil, app_nil_r.
Qed.
End Sub.

(** * Characters *)

Lemma ieq_cases a c :
  ieq a c = true →
  (c = a
   ∨ (65 ≤ a ≤ 90 ∧ c = a + 32)
   ∨ (97 ≤ a ≤ 122 ∧ c + 32 = a)
   ∨ ((a = 73 ∨ a = 105) ∧ (c = 304 ∨ c = 305))
   ∨ ((a = 83 ∨ a = 115) ∧ c = 383)
   ∨ ((a = 75 ∨ a = 107) ∧ c = 8490))%N.
Proof.
  unfold ieq, is_upper, is_lower.
  repeat match goal with
         | |- context [N.leb ?x ?y] => destruct (N.leb_spec x y)
         end; simpl in *;
    repeat (rewrite orb_true_iff || rewrite andb_true_iff || rewrite N.eqb_eq);
    lia.
Qed.

Lemma isspace_cases c :
  isspace c = true →
  (9 ≤ c ≤ 13 ∨ 28 ≤ c ≤ 32 ∨ c = 133 ∨ c = 160 ∨ c = 5760 ∨ 8192 ≤ c ≤ 8202
   ∨ c = 8232 ∨ c = 8233 ∨ c = 8239 ∨ c = 8287 ∨ c = 12288)%N.
Proof.
  unfold isspace.
  repeat (rewrite orb_true_iff || rewrite andb_true_iff || rewrite N.eqb_eq
          || rewrite N.leb_le).
  tauto.
Qed.

Lemma is_not_true a c : is_not a c = true ↔ c ≠ a.
Proof. unfold is_not. by rewrite negb_true_iff, N.eqb_neq. Qed.

Lemma is_not_false a c : is_not a c = false ↔ c = a.
Proof. unfold is_not. by rewrite negb_false_iff, N.eqb_eq. Qed.

(** Facts about single characters, by cases on what the classes hold. *)
Ltac chars :=
  intros;
  repeat match goal with
         | |- _ = false => apply not_true_is_false; intro
         | |- is_not _ _ = true => apply is_not_true
         | |- N.eqb _ _ = true => apply N.eqb_eq
         | H : ieq _ _ = true |- _ => apply ieq_cases in H
         | H : isspace _ = true |- _ => apply isspace_cases in H
         | H : is_not _ _ = true |- _ => apply is_not_true in H
         | H : is_not _ _ = false |- _ => apply is_not_false in H
         | H : N.eqb _ _ = true |- _ => apply N.eqb_eq in H
         | H : N.eqb _ _ = false |- _ => apply N.eqb_neq in H
         | H : _ = false |- _ => apply not_true_iff_false in H
         end;
  try lia.

Lemma space_not_pct c : isspace c = true → is_not 37 c = true.
Proof. chars. Qed.

Lemma blank_free_of a w :
  isspace a = false → blank w = true → free_of a w = true.
Proof.
  intros Ha. unfold blank, free_of. induction w as [|c w IH]; simpl; [done|].
  intros [Hc Hw]%andb_prop. rewrite IH by done.
  rewrite andb_true_r. apply is_not_true. intros ->. congruence.
Qed.

Lemma ilike_free_of a l T :
  (∀ c, In c l → ieq c a = false) → ilike l T = true → free_of a T = true.
Proof.
  unfold free_of. revert T. induction l as [|x l IH]; intros [|c T]; simpl; try done.
  intros Hl [Hc HT]%andb_prop. rewrite (IH T) by auto.
  rewrite andb_true_r. apply is_not_true. intros ->.
  rewrite Hl in Hc by auto. done.
Qed.

Lemma ilike_length l T : ilike l T = true → length T = length l.
Proof.
  revert T. induction l as [|x l IH]; intros [|c T]; simpl; try done.
  intros [_ HT]%andb_prop. f_equal. auto.
Qed.

Lemma ilike_cons_inv a l T :
  ilike (a :: l) T = true →
  ∃ t T', T = t :: T' ∧ ieq a t = true ∧ ilike l T' = true.
Proof. destruct T as [|t T]; simpl; [done|]. intros [??]%andb_prop. eauto. Qed.

(** A literal without letters matches itself only. *)
Lemma ilike_uncased l T :
  forallb (λ a, negb (is_upper a) && negb (is_lower a)) l = true →
  ilike l T = true → T = l.
Proof.
  revert T. induction l as [|a l IH]; intros [|c T]; simpl; try done.
  intros [Ha Hl]%andb_prop [Hc HT]%andb_prop. rewrite (IH T) by done.
  f_equal. unfold ieq in Hc. apply andb_prop in Ha as [Hu Hlo].
  apply negb_true_iff in Hu. rewrite Hu in Hc.
  apply negb_true_iff in Hlo. rewrite Hlo in Hc. by apply N.eqb_eq in Hc.
Qed.

(** * The matcher on literals and runs *)

Lemma mt_one p r o g c s :
  p c = true → mt (One p :: r) o g (c :: s) = mt r o g s.
Proof. simpl. by intros ->. Qed.

Lemma mt_ilike l T r o g s :
  ilike l T = true →
  mt (map (λ a, One (ieq a)) l ++ r) o g (T ++ s) = mt r o g s.
Proof.
  revert T. induction l as [|a l IH]; intros [|c T]; simpl; try done.
  intros [-> HT]%andb_prop. by apply IH.
Qed.

Lemma mt_ilit l T r o g s :
  ilike (str l) T = true → mt (ilit l ++ r) o g (T ++ s) = mt r o g s.
Proof. apply mt_ilike. Qed.

Lemma mt_ilit_end l T o g s :
  ilike (str l) T = true → mt (ilit l) o g (T ++ s) = Some (Match g s).
Proof.
  intros H. rewrite <-(app_nil_r (ilit l)). by rewrite mt_ilit.
Qed.

Lemma mt_greedy_longest p lo r o g s m :
  lo ≤ length (take_while p s) → mt r o g (drop_while p s) = Some m →
  mt (Rep true lo p :: r) o g s = Some m.
Proof. apply rep_greedy_longest. Qed.

(** The greedy repetition on a run [w] of the class that stops at [x]. *)
Lemma mt_greedy_run p lo r o g w x m :
  forallb p w = true → lo ≤ length w → drop_while p x = x →
  mt r o g x = Some m → mt (Rep true lo p :: r) o g (w ++ x) = Some m.
Proof.
  intros Hw Hlo Hx Hm. apply mt_greedy_longest.
  - rewrite take_while_app, length_app by done. lia.
  - by rewrite drop_while_app, Hx.
Qed.

Lemma mt_greedy_reject p lo r o g s :
  (∀ c s', p c = true → can_start r (c :: s') = false) →
  mt (Rep true lo p :: r) o g s =
    if bool_decide (lo ≤ length (take_while p s))
    then mt r o g (drop_while p s) else None.
Proof.
  intros H. apply rep_greedy_reject. intros c s' Hc.
  apply mt_can_start. auto.
Qed.

Lemma sem_ilike l r o g s m :
  sem (map (λ a, One (ieq a)) l ++ r) o g s m →
  ∃ T s', s = T ++ s' ∧ ilike l T = true ∧ sem r o g s' m.
Proof.
  revert s. induction l as [|a l IH]; intros s; simpl.
  - intros H. exists [], s. auto.
  - intros (c & s' & -> & Hc & H). destruct (IH _ H) as (T & s'' & -> & HT & H').
    exists (c :: T), s''. simpl. rewrite Hc, HT. auto.
Qed.

Lemma sem_ilit l r o g s m :
  sem (ilit l ++ r) o g s m →
  ∃ T s', s = T ++ s' ∧ ilike (str l) T = true ∧ sem r o g s' m.
Proof. apply sem_ilike. Qed.

Lemma sem_ilit_end l o g s m :
  sem (ilit l) o g s m →
  ∃ T s', s = T ++ s' ∧ ilike (str l) T = true ∧ m = Match g s'.
Proof. intros H. rewrite <-(app_nil_r (ilit l)) in H. by apply sem_ilit in H. Qed.

Lemma drop_while_id p x :
  match x with c :: _ => p c = false | [] => True end → drop_while p x = x.
Proof. destruct x as [|c x]; simpl; [done|]. by intros ->. Qed.

Lemma take_app_diff {A} (v x : list A) :
  take (length (v ++ x) - length x) (v ++ x) = v.
Proof.
  rewrite length_app. replace (length v + length x - length x) with (length v) by lia.
  by rewrite take_app_length.
Qed.

(** * The page directive pattern *)

Lemma page_exact D v :
  page_block D → match_at PAGE_DIRECTIVE_RE (D ++ v) = Some (Match None v).
Proof.
  intros (w1 & T & c & b & -> & Hw1 & HT & Hc & Hb).
  unfold match_at, PAGE_DIRECTIVE_RE.
  rewrite <-!app_assoc. rewrite mt_ilit by reflexivity.
  cbn [app]. unfold ws_star, ws_plus.
  rewrite <-!app_assoc.
  apply mt_greedy_run; [done|lia| |].
  { destruct (ilike_cons_inv 80 (str "age") T HT) as (t & T' & -> & Ht & _).
    apply drop_while_id. simpl. revert Ht. chars. }
  rewrite mt_ilit by done. cbn [app].
  apply mt_greedy_longest.
  { simpl. rewrite Hc. simpl. lia. }
  apply mt_greedy_longest; [lia|].
  rewrite drop_while_weaker by apply space_not_pct.
  change (c :: b ++ str "%>" ++ v) with ((c :: b) ++ str "%>" ++ v).
  rewrite drop_while_app.
  2:{ simpl. unfold free_of in Hb. rewrite Hb, andb_true_r. by apply space_not_pct. }
  rewrite drop_while_id by reflexivity.
  by apply mt_ilit_end.
Qed.

Lemma page_sound s m :
  match_at PAGE_DIRECTIVE_RE s = Some m →
  ∃ D, page_block D ∧ s = D ++ m_rest m ∧ m_g1 m = None.
Proof.
  intros H%mt_sound. unfold PAGE_DIRECTIVE_RE, ws_star, ws_plus in H.
  apply sem_ilit in H as (T0 & s0 & -> & HT0 & H).
  cbn [app sem] in H. destruct H as (w1 & s1 & -> & Hw1 & _ & H).
  apply sem_ilit in H as (T & s2 & -> & HT & H).
  cbn [app sem] in H. destruct H as (w2 & s3 & -> & Hw2 & Hlo & H).
  destruct H as (b & s4 & -> & Hb & _ & H).
  apply sem_ilit_end in H as (T1 & s5 & -> & HT1 & ->).
  apply ilike_uncased in HT0 as ->; [|reflexivity].
  apply ilike_uncased in HT1 as ->; [|reflexivity].
  destruct w2 as [|c w2]; [simpl in Hlo; lia|].
  simpl in Hw2. apply andb_prop in Hw2 as [Hc Hw2].
  exists (str "<%@" ++ w1 ++ T ++ c :: (w2 ++ b) ++ str "%>"). split_and!.
  - exists w1, T, c, (w2 ++ b). split_and!; try done.
    unfold free_of. rewrite forallb_app. apply andb_true_intro. split; [|done].
    apply (blank_free_of 37 w2); [reflexivity|exact Hw2].
  - cbn [m_rest app]. rewrite <-!app_assoc. cbn [app]. by rewrite <-!app_assoc.
  - done.
Qed.

Lemma page_starts_iff s :
  page_starts s ↔ is_Some (match_at PAGE_DIRECTIVE_RE s).
Proof.
  split.
  - intros (D & rest & HD & ->). rewrite page_exact by done. eauto.
  - intros [m (D & HD & Hs & _)%page_sound]. by exists D, (m_rest m).
Qed.

(** The first page directive block, in the specification's words, is the
    one the search finds. *)
Lemma first_block_search t pre D post :
  first_block t pre D post →
  search PAGE_DIRECTIVE_RE t = Some (pre, Match None post).
Proof.
  intros (-> & HD & Hfirst). apply search_found.
  - intros i Hi. specialize (Hfirst i Hi). rewrite drop_app_le in Hfirst by lia.
    destruct (match_at _ _) eqn:E; [|done].
    destruct Hfirst. apply page_starts_iff. rewrite E. eauto.
  - by apply page_exact.
Qed.

Lemma search_first_block t pre m :
  search PAGE_DIRECTIVE_RE t = Some (pre, m) →
  first_block t pre (matched (drop (length pre) t) m) (m_rest m).
Proof.
  intros (v & -> & Hm & Hu)%search_Some.
  destruct (page_sound _ _ Hm) as (D & HD & -> & _).
  rewrite drop_app_length. unfold matched. rewrite take_app_diff.
  split_and!; [done..|].
  intros j Hj [m' Hm']%page_starts_iff. rewrite drop_app_le in Hm' by lia.
  rewrite (Hu j Hj) in Hm'. done.
Qed.

Lemma extract_title_first t pre D post :
  first_block t pre D post → extract_title t = title_in D.
Proof.
  intros H. unfold extract_title. rewrite (first_block_search _ _ _ _ H).
  destruct H as (-> & _ & _). rewrite drop_app_length.
  unfold matched. simpl. by rewrite take_app_diff.
Qed.

Lemma extract_title_none t :
  (∀ j, ¬ page_starts (drop j t)) → extract_title t = DEFAULT_TITLE.
Proof.
  intros H. unfold extract_title.
  assert (search PAGE_DIRECTIVE_RE t = None) as ->; [|done].
  apply search_None. intros i _.
  destruct (match_at _ _) eqn:E; [|done].
  destruct (H i). apply page_starts_iff. rewrite E. eauto.
Qed.

(** * The title pattern *)

Lemma title_exact v s :
  title_attr v s → ∃ rest, match_at TITLE_RE s = Some (Match (Some v) rest).
Proof.
  intros (T & w3 & w4 & rest & -> & HT & Hw3 & Hw4 & Hv & Hq).
  exists rest. unfold match_at, TITLE_RE, ws_star.
  rewrite mt_ilit by done. cbn [app].
  apply mt_greedy_run; [done|lia|by apply drop_while_id|].
  change (ilit "=") with [One (ieq 61)]. cbn [app].
  rewrite mt_one by reflexivity.
  apply mt_greedy_run; [done|lia|by apply drop_while_id|].
  rewrite mt_one by reflexivity. cbn [mt].
  apply rep_greedy_longest.
  - rewrite take_while_app by done. rewrite length_app.
    destruct v; [done|]. simpl. lia.
  - rewrite drop_while_app by done. rewrite drop_while_id by reflexivity.
    cbn [mt]. rewrite take_app_diff. done.
Qed.

Lemma title_sound s m :
  match_at TITLE_RE s = Some m → ∃ v, title_attr v s ∧ m_g1 m = Some v.
Proof.
  intros H%mt_sound. unfold TITLE_RE, ws_star in H.
  apply sem_ilit in H as (T & s0 & -> & HT & H).
  cbn [app sem] in H. destruct H as (w3 & s1 & -> & Hw3 & _ & H).
  change (ilit "=") with [One (ieq 61)] in H. cbn [app sem] in H.
  destruct H as (c1 & s2 & -> & Hc1 & H).
  destruct H as (w4 & s3 & -> & Hw4 & _ & H).
  destruct H as (c2 & s4 & -> & Hc2 & H).
  destruct H as (v & s5 & -> & Hv & Hlo & H).
  destruct H as (c3 & s6 & -> & Hc3 & ->).
  assert (c1 = 61%N) as -> by (revert Hc1; chars).
  assert (c2 = 34%N) as -> by (revert Hc2; chars).
  assert (c3 = 34%N) as -> by (revert Hc3; chars).
  exists v. split.
  - exists T, w3, w4, s6. split_and!; try done.
    destruct v; [simpl in Hlo; lia|done].
  - cbn [m_g1]. by rewrite take_app_diff.
Qed.

Lemma title_in_first D i X :
  title_attr X (drop i D) →
  (∀ j v, j < i → ¬ title_attr v (drop j D)) →
  title_in D = X.
Proof.
  intros HX Hfirst. unfold title_in.
  destruct (title_exact _ _ HX) as [rest Hm].
  assert (i ≤ length D) as Hi.
  { destruct (decide (i ≤ length D)); [done|].
    rewrite drop_ge in HX by lia. destruct HX as (T & ? & ? & ? & E & HT & _).
    apply ilike_length in HT. apply (f_equal length) in E.
    rewrite length_app, HT in E. simpl in E. lia. }
  rewrite <-(take_drop i D) at 1.
  rewrite (search_found TITLE_RE (take i D) (drop i D) (Match (Some X) rest));
    [done| |exact Hm].
  intros j Hj. rewrite length_take in Hj.
  destruct (match_at TITLE_RE (drop j (take i D) ++ drop i D)) eqn:E; [|done].
  destruct (title_sound _ _ E) as (v & Hv & _).
  destruct (Hfirst j v); [lia|].
  replace (drop j D) with (drop j (take i D) ++ drop i D); [done|].
  rewrite <-drop_app_le by (rewrite length_take; lia).
  by rewrite take_drop.
Qed.


(** * The head template *)

Lemma head_of_title title : head_of title = HEAD_BEFORE ++ title ++ HEAD_AFTER.
Proof. vm_compute. reflexivity. Qed.

Lemma template_split :
  COMMON_HEAD_TEMPLATE = HEAD_BEFORE ++ str "{{TITLE}}" ++ HEAD_AFTER.
Proof. vm_compute. reflexivity. Qed.

Lemma html_of_split t :
  html_of t = DOC_OPEN ++ (HEAD_BEFORE ++ extract_title t ++ HEAD_AFTER)
              ++ BODY_OPEN ++ body_of t ++ DOC_CLOSE.
Proof. unfold html_of, render. by rewrite head_of_title. Qed.

(** * Counting percent signs *)



Lemma free_of_app a u v :
  free_of a (u ++ v) = true ↔ free_of a u = true ∧ free_of a v = true.
Proof. apply forallb_app_true. Qed.

Lemma page_attrs_free w1 T c b :
  blank w1 = true → ilike (str "Page") T = true → isspace c = true →
  free_of 37 b = true → free_of 37 (w1 ++ T ++ c :: b) = true.
Proof.
  intros Hw1 HT Hc Hb.
  apply free_of_app. split; [by apply blank_free_of|].
  apply free_of_app. split.
  - apply (ilike_free_of 37 (str "Page")); [|done].
    intros x Hx. vm_compute in Hx. by destruct Hx as [<-|[<-|[<-|[<-|[]]]]].
  - simpl. rewrite Hb, andb_true_r. by apply space_not_pct.
Qed.

Lemma page_block_shape D :
  page_block D →
  ∃ β, D = 60%N :: 37%N :: 64%N :: β ++ [37; 62]%N ∧ free_of 37 β = true.
Proof.
  intros (w1 & T & c & b & -> & Hw1 & HT & Hc & Hb).
  exists (w1 ++ T ++ c :: b). split.
  - change (str "<%@") with [60; 37; 64]%N. change (str "%>") with [37; 62]%N.
    cbn [app]. by rewrite <-!app_assoc.
  - by apply page_attrs_free.
Qed.


(** * An empty title value *)

Lemma title_empty_fails s :
  empty_title_attr s → match_at TITLE_RE s = None.
Proof.
  intros (T & w3 & w4 & rest & -> & HT & Hw3 & Hw4).
  unfold match_at, TITLE_RE, ws_star.
  rewrite mt_ilit by done. cbn [app].
  change (ilit "=") with [One (ieq 61)]. cbn [app].
  rewrite mt_greedy_reject.
  2:{ intros c s' Hc. cbn [can_start]. replace (ieq 61 c) with false; [done|].
      symmetry. revert Hc. chars. }
  rewrite bool_decide_eq_true_2 by lia.
  rewrite drop_while_app, drop_while_id by done.
  rewrite mt_one by reflexivity.
  rewrite mt_greedy_reject.
  2:{ intros c s' Hc. cbn [can_start]. replace (ieq 34 c) with false; [done|].
      symmetry. revert Hc. chars. }
  rewrite bool_decide_eq_true_2 by lia.
  rewrite drop_while_app, drop_while_id by done.
  rewrite mt_one by reflexivity. reflexivity.
Qed.

(** * Titles *)

Lemma html_of_page_with t : html_of t = page_with (extract_title t) (body_of t).
Proof. apply html_of_split. Qed.

Lemma none_before_spec r n s j :
  none_before r n s = true → j < n → match_at r (drop j s) = None.
Proof.
  unfold none_before. rewrite forallb_forall. intros H Hj.
  specialize (H j). unfold has_match in H.
  destruct (match_at r (drop j s)); [|done].
  discriminate H. apply in_seq. lia.
Qed.

Lemma no_page_before t n j :
  none_before PAGE_DIRECTIVE_RE n t = true → j < n → ¬ page_starts (drop j t).
Proof.
  intros H Hj [m Hm]%page_starts_iff.
  by rewrite (none_before_spec _ _ _ _ H Hj) in Hm.
Qed.


Lemma no_title_before D n j v :
  none_before TITLE_RE n D = true → j < n → ¬ title_attr v (drop j D).
Proof.
  intros H Hj [rest Hm]%title_exact.
  by rewrite (none_before_spec _ _ _ _ H Hj) in Hm.
Qed.

Lemma no_title_anywhere D j v :
  none_before TITLE_RE (S (length D)) D = true → ¬ title_attr v (drop j D).
Proof.
  intros H. destruct (decide (j < S (length D))) as [Hj|Hj].
  - by apply (no_title_before _ _ _ _ H).
  - rewrite drop_ge by lia. rewrite <-(drop_all D).
    apply (no_title_before _ _ _ _ H). lia.
Qed.

(** C1, as worded, fails: a page directive whose title attribute is empty
    gives the default title, not the empty one. *)
Lemma empty_title_is_not_output :
  ¬ every_title_is_output (str ("<%@ Page Title=" ++ QT ++ QT ++ " %>")) [].
Proof.
  intros H.
  assert (extract_title (str ("<%@ Page Title=" ++ QT ++ QT ++ " %>")) = []) as E.
  { apply H.
    exists [], (str ("<%@ Page Title=" ++ QT ++ QT ++ " %>")), [], 9, (str " %>").
    split_and!; [reflexivity| |reflexivity].
    exists [32%N], (str "Page"), 32%N, (str ("Title=" ++ QT ++ QT ++ " ")).
    split_and!; reflexivity. }
  vm_compute in E. discriminate E.
Qed.

(** C1, amended: when [D] is the first page directive block of the text and
    the first title attribute in [D] has the non-empty value [X], the title
    is [X], and the output holds it between the title tags of the head. *)
Theorem first_title_is_output t pre D post i X :
  first_block t pre D post →
  title_attr X (drop i D) →
  (∀ j v, j < i → ¬ title_attr v (drop j D)) →
  extract_title t = X
  ∧ html_of t = page_with X (body_of t)
  ∧ str "<title>" `suffix_of` HEAD_BEFORE
  ∧ str "</title>" `prefix_of` HEAD_AFTER.
Proof.
  intros Hb HX Hfirst.
  assert (extract_title t = X) as E.
  { rewrite (extract_title_first _ _ _ _ Hb). by apply (title_in_first D i). }
  split_and!.
  - done.
  - by rewrite html_of_page_with, E.
  - exists (take 38 HEAD_BEFORE). vm_compute. reflexivity.
  - exists (drop 8 HEAD_AFTER). vm_compute. reflexivity.
Qed.

Lemma first_title_is_output_witness :
  extract_title
    (str ("<html>" ++ "<%@ Page Language=" ++ QT ++ "C#" ++ QT ++ " Title="
          ++ QT ++ "Home" ++ QT ++ " %>" ++ "<%@ Page Title=" ++ QT
          ++ "Other" ++ QT ++ " %>")) = str "Home".
Proof.
  refine (proj1 (first_title_is_output _ (str "<html>")
    (str ("<%@ Page Language=" ++ QT ++ "C#" ++ QT ++ " Title=" ++ QT
          ++ "Home" ++ QT ++ " %>"))
    (str ("<%@ Page Title=" ++ QT ++ "Other" ++ QT ++ " %>"))
    23 (str "Home") _ _ _)).
  - split_and!; [reflexivity| |].
    + exists [32%N], (str "Page"), 32%N,
        (str ("Language=" ++ QT ++ "C#" ++ QT ++ " Title=" ++ QT ++ "Home" ++ QT ++ " ")).
      split_and!; reflexivity.
    + intros j Hj. apply (no_page_before _ 6); [vm_compute; reflexivity|exact Hj].
  - exists (str "Title"), [], [], (str " %>").
    split_and!; [reflexivity..|discriminate|reflexivity].
  - intros j v Hj. apply (no_title_before _ 23); [vm_compute; reflexivity|exact Hj].
Defined.



(** C3: the head of every output is the fixed template with the title in
    its one slot; the text before the slot and the text after it are the
    same for any two input texts. *)
Theorem head_is_template_around_title (t1 t2 : list N) :
  COMMON_HEAD_TEMPLATE = HEAD_BEFORE ++ str "{{TITLE}}" ++ HEAD_AFTER
  ∧ head_of (extract_title t1) = HEAD_BEFORE ++ extract_title t1 ++ HEAD_AFTER
  ∧ head_of (extract_title t2) = HEAD_BEFORE ++ extract_title t2 ++ HEAD_AFTER
  ∧ html_of t1 = DOC_OPEN ++ head_of (extract_title t1) ++ BODY_OPEN
                 ++ body_of t1 ++ DOC_CLOSE
  ∧ html_of t2 = DOC_OPEN ++ head_of (extract_title t2) ++ BODY_OPEN
                 ++ body_of t2 ++ DOC_CLOSE
  ∧ str "<title>" `suffix_of` HEAD_BEFORE
  ∧ str "</title>" `prefix_of` HEAD_AFTER.
Proof.
  split_and!; try apply head_of_title.
  - apply template_split.
  - reflexivity.
  - reflexivity.
  - exists (take 38 HEAD_BEFORE). vm_compute. reflexivity.
  - exists (drop 8 HEAD_AFTER). vm_compute. reflexivity.
Qed.

(** C7: the title and the body go into the output as they are: the output
    is the fixed text with the title and the body in their places, whatever
    characters they hold. *)
Theorem title_and_body_verbatim :
  (∀ title body,
     render (head_of title) body =
       DOC_OPEN ++ HEAD_BEFORE ++ title ++ HEAD_AFTER ++ BODY_OPEN ++ body
       ++ DOC_CLOSE)
  ∧ (∀ t, html_of t =
       DOC_OPEN ++ HEAD_BEFORE ++ extract_title t ++ HEAD_AFTER ++ BODY_OPEN
       ++ body_of t ++ DOC_CLOSE)
  ∧ extract_title
      (str ("<%@ Page Title=" ++ QT ++ "a<b>&c" ++ QT ++ " %>"
            ++ "x < y & " ++ QT ++ "z" ++ QT ++ " > w")) = str "a<b>&c"
  ∧ body_of
      (str ("<%@ Page Title=" ++ QT ++ "a<b>&c" ++ QT ++ " %>"
            ++ "x < y & " ++ QT ++ "z" ++ QT ++ " > w"))
    = str ("x < y & " ++ QT ++ "z" ++ QT ++ " > w").
Proof.
  assert (∀ title body,
     render (head_of title) body =
       DOC_OPEN ++ HEAD_BEFORE ++ title ++ HEAD_AFTER ++ BODY_OPEN ++ body
       ++ DOC_CLOSE) as H.
  { intros title body. unfold render. rewrite head_of_title.
    by rewrite <-!(assoc_L (++)). }
  split_and!; [exact H|intros t; exact (H _ _)|vm_compute; reflexivity..].
Qed.

(** C9, as worded, fails: next to the empty title attribute the block can
    hold a second title attribute, with a value. *)
Lemma empty_title_beside_another :
  ¬ empty_title_means_default
      (str ("<%@ Page Title=" ++ QT ++ QT ++ " Title=" ++ QT ++ "B" ++ QT
            ++ " %>")).
Proof.
  intros H.
  assert (extract_title
            (str ("<%@ Page Title=" ++ QT ++ QT ++ " Title=" ++ QT ++ "B"
                  ++ QT ++ " %>")) = DEFAULT_TITLE) as E.
  { apply H.
    exists [], (str ("<%@ Page Title=" ++ QT ++ QT ++ " Title=" ++ QT ++ "B"
                     ++ QT ++ " %>")), [], 9.
    split.
    - split_and!; [reflexivity| |intros j Hj; simpl in Hj; lia].
      exists [32%N], (str "Page"), 32%N,
        (str ("Title=" ++ QT ++ QT ++ " Title=" ++ QT ++ "B" ++ QT ++ " ")).
      split_and!; reflexivity.
    - exists (str "Title"), [], [], (str (" Title=" ++ QT ++ "B" ++ QT ++ " %>")).
      split_and!; reflexivity. }
  vm_compute in E. discriminate E.
Qed.

(** C9, amended: the title pattern does not match at a title attribute
    whose value is empty; so when the first page directive block holds one
    and no title attribute with a value begins anywhere else in the block,
    the title is Untitled Page. *)
Theorem empty_title_gives_default t pre D post i :
  first_block t pre D post →
  empty_title_attr (drop i D) →
  (∀ j v, j ≠ i → ¬ title_attr v (drop j D)) →
  match_at TITLE_RE (drop i D) = None
  ∧ extract_title t = str "Untitled Page"
  ∧ html_of t = page_with (str "Untitled Page") (body_of t).
Proof.
  intros Hb He Hothers.
  assert (extract_title t = DEFAULT_TITLE) as E.
  { rewrite (extract_title_first _ _ _ _ Hb). unfold title_in.
    assert (search TITLE_RE D = None) as ->; [|done].
    apply search_None. intros j _.
    destruct (decide (j = i)) as [->|Hj]; [by apply title_empty_fails|].
    destruct (match_at TITLE_RE (drop j D)) eqn:F; [|done].
    destruct (title_sound _ _ F) as (v & Hv & _). by destruct (Hothers j v). }
  split_and!; [by apply title_empty_fails|done|].
  by rewrite html_of_page_with, E.
Qed.

Lemma empty_title_gives_default_witness :
  extract_title
    (str ("<%@ Page Language=" ++ QT ++ "C#" ++ QT ++ " Title = " ++ QT ++ QT
          ++ " %><h1>x</h1>")) = str "Untitled Page".
Proof.
  refine (proj1 (proj2 (empty_title_gives_default _ []
    (str ("<%@ Page Language=" ++ QT ++ "C#" ++ QT ++ " Title = " ++ QT ++ QT
          ++ " %>"))
    (str "<h1>x</h1>") 23 _ _ _))).
  - split_and!; [reflexivity| |intros j Hj; simpl in Hj; lia].
    exists [32%N], (str "Page"), 32%N,
      (str ("Language=" ++ QT ++ "C#" ++ QT ++ " Title = " ++ QT ++ QT ++ " ")).
    split_and!; reflexivity.
  - exists (str "Title"), [32%N], [32%N], (str " %>"). split_and!; reflexivity.
  - intros j v _. apply no_title_anywhere. vm_compute. reflexivity.
Defined.

(** * The driver *)

(** Making the output directory adds directories and nothing else. *)
Lemma mkdir_parents_keeps p : ∀ fs fs',
  mkdir_parents p fs = inr fs' →
  (∀ q c, fs' !! q = Some (File c) ↔ fs !! q = Some (File c))
  ∧ (∀ q, fs !! q = Some Dir → fs' !! q = Some Dir).
Proof.
  induction p as [|n parent IH]; intros fs fs'; simpl.
  - by intros [= <-].
  - destruct (fs !! (n :: parent)) as [[|c0]|] eqn:Hp; [by intros [= <-]|done|].
    assert (∀ fs1 : gmap (list (list N)) entry,
      (∀ q c, fs1 !! q = Some (File c) ↔ fs !! q = Some (File c)) →
      (∀ q, fs !! q = Some Dir → fs1 !! q = Some Dir) →
      (∀ q c, <[n :: parent := Dir]> fs1 !! q = Some (File c)
              ↔ fs !! q = Some (File c))
      ∧ (∀ q, fs !! q = Some Dir → <[n :: parent := Dir]> fs1 !! q = Some Dir))
      as Hins.
    { intros fs1 H1 H2. split.
      - intros q c. destruct (decide (q = n :: parent)) as [->|Hq].
        + rewrite lookup_insert_eq, Hp. split; intros [=].
        + rewrite lookup_insert_ne by done. apply H1.
      - intros q Hq. destruct (decide (q = n :: parent)) as [->|Hne].
        + by rewrite lookup_insert_eq.
        + rewrite lookup_insert_ne by done. by apply H2. }
    destruct (fs_lookup fs parent) as [[|c0]|] eqn:Hpar.
    + intros [= <-]. by apply Hins.
    + done.
    + destruct (mkdir_parents parent fs) as [e|fs1] eqn:Hrec; [done|].
      intros [= <-]. destruct (IH _ _ Hrec) as [H1 H2]. by apply Hins.
Qed.

(** C8, as worded, fails: when the output path is an existing file, making
    the output directory raises before the notice is printed. *)
Lemma empty_input_but_output_is_a_file :
  ¬ empty_input_is_quiet
      (World (<[ [str "in"] := Dir ]> (<[ [str "out"] := File [] ]> ∅)) [])
      [str "in"] [str "out"].
Proof.
  intros H. destruct H as (w' & Hmain & _); [reflexivity|reflexivity|].
  vm_compute in Hmain. discriminate Hmain.
Qed.

(** C8, amended: an input path that is not a directory makes [main] raise
    its error with the state untouched; with an input directory, an output
    directory that is there or can be made, and no matching entry in the
    input directory, [main] returns normally, prints the notice only, keeps
    every file as it was and adds no file. *)
Theorem main_guard_and_empty_input w input_dir output_dir :
  (fs_lookup (w_fs w) input_dir ≠ Some Dir →
     main input_dir output_dir w =
       (inl (ValueError (BAD_INPUT_DIR ++ path_str input_dir)), w))
  ∧ (∀ fs',
       fs_lookup (w_fs w) input_dir = Some Dir →
       mkdir_parents output_dir (w_fs w) = inr fs' →
       aspx_files fs' input_dir = [] →
       main input_dir output_dir w =
         (inr (), World fs' (w_out w ++ [NO_ASPX_FOUND]))
       ∧ (∀ p c, fs' !! p = Some (File c) ↔ w_fs w !! p = Some (File c))
       ∧ (∀ p, w_fs w !! p = Some Dir → fs' !! p = Some Dir)).
Proof.
  split.
  - intros Hin. unfold main, mbind, M_bind, path_exists, is_dir, raise.
    destruct (fs_lookup (w_fs w) input_dir) as [[|c]|]; done.
  - intros fs' Hin Hmk Hglob. split.
    + unfold main, mbind, M_bind, path_exists, is_dir, mkdir, glob_aspx, print.
      rewrite Hin. simpl. rewrite Hmk. simpl. rewrite Hglob. done.
    + by apply (mkdir_parents_keeps output_dir).
Qed.

Lemma main_guard_and_empty_input_witness :
  main [str "missing"] [str "out"]
    (World (<[ [str "in"] := Dir ]> (<[ [str "a.txt"; str "in"] := File (str "x") ]> ∅)) [])
  = (inl (ValueError (BAD_INPUT_DIR ++ path_str [str "missing"])),
     World (<[ [str "in"] := Dir ]> (<[ [str "a.txt"; str "in"] := File (str "x") ]> ∅)) [])
  ∧ (main [str "in"] [str "html"; str "out"]
       (World (<[ [str "in"] := Dir ]> (<[ [str "a.txt"; str "in"] := File (str "x") ]> ∅)) [])).1
    = inr ().
Proof.
  split.
  - apply (proj1 (main_guard_and_empty_input _ _ _)). vm_compute. discriminate.
  - refine (f_equal fst (proj1 (proj2 (main_guard_and_empty_input _ _ _)
      (<[ [str "html"; str "out"] := Dir ]>
         (<[ [str "out"] := Dir ]>
            (<[ [str "in"] := Dir ]>
               (<[ [str "a.txt"; str "in"] := File (str "x") ]> ∅)))) _ _ _))).
    + vm_compute. reflexivity.
    + vm_compute. reflexivity.
    + vm_compute. reflexivity.
Defined.

(** * Trimming *)

Lemma lstrip_drop_while s : lstrip s = drop_while isspace s.
Proof. induction s as [|c s IH]; simpl; [done|]. by rewrite IH. Qed.

Lemma lstrip_tight s : tight_head (lstrip s) = true.
Proof.
  induction s as [|c s IH]; simpl; [done|].
  destruct (isspace c) eqn:E; [done|]. simpl. by rewrite E.
Qed.

Lemma lstrip_id s : tight_head s = true → lstrip s = s.
Proof. destruct s as [|c s]; simpl; [done|]. by intros ->%negb_true_iff. Qed.

Lemma lstrip_app_tight a x :
  tight_head x = true → x ≠ [] → lstrip (a ++ x) = lstrip a ++ x.
Proof.
  intros Hx Hne. induction a as [|c a IH]; simpl.
  - by apply lstrip_id.
  - destruct (isspace c); [done|]. done.
Qed.

Lemma forallb_rev {A} (p : A → bool) s : forallb p (rev s) = forallb p s.
Proof.
  induction s as [|c s IH]; simpl; [done|].
  rewrite forallb_app. simpl. rewrite IH. by destruct (p c), (forallb p s).
Qed.


Lemma rstrip_id s : tight_head (rev s) = true → rstrip s = s.
Proof. intros H. unfold rstrip. by rewrite lstrip_id, rev_involutive. Qed.

Lemma strip_id s :
  tight_head s = true → tight_head (rev s) = true → strip s = s.
Proof. intros H1 H2. unfold strip. by rewrite lstrip_id, rstrip_id. Qed.

(** What trimming on the right takes away is white space. *)
Lemma rstrip_split y :
  ∃ wd, y = rstrip y ++ wd ∧ blank wd = true
        ∧ tight_head (rev (rstrip y)) = true.
Proof.
  exists (rev (take_while isspace (rev y))). split_and!.
  - unfold rstrip. rewrite lstrip_drop_while, <-rev_app_distr.
    by rewrite take_drop_while, rev_involutive.
  - unfold blank. rewrite forallb_rev. apply forallb_take_while.
  - unfold rstrip. rewrite rev_involutive. apply lstrip_tight.
Qed.

Lemma lstrip_split x :
  ∃ wc, x = wc ++ lstrip x ∧ blank wc = true.
Proof.
  exists (take_while isspace x). split.
  - by rewrite lstrip_drop_while, take_drop_while.
  - apply forallb_take_while.
Qed.

Lemma rstrip_keeps_head y : tight_head y = true → tight_head (rstrip y) = true.
Proof.
  intros Hy. destruct (rstrip_split y) as (wd & E & _ & _).
  destruct (rstrip y) as [|c r]; [done|]. rewrite E in Hy. done.
Qed.

Lemma strip_tight x :
  tight_head (strip x) = true ∧ tight_head (rev (strip x)) = true.
Proof.
  unfold strip. split.
  - apply rstrip_keeps_head, lstrip_tight.
  - by destruct (rstrip_split (lstrip x)) as (_ & _ & _ & H).
Qed.

Lemma strip_strip x : strip (strip x) = strip x.
Proof. destruct (strip_tight x). by apply strip_id. Qed.

Lemma free_of_lstrip a s : free_of a s = true → free_of a (lstrip s) = true.
Proof.
  unfold free_of. induction s as [|c s IH]; simpl; [done|].
  intros [Hc Hs]%andb_prop. destruct (isspace c); [auto|].
  simpl. by rewrite Hc, Hs.
Qed.

Lemma free_of_rev a s : free_of a (rev s) = free_of a s.
Proof. apply forallb_rev. Qed.

Lemma free_of_strip a s : free_of a s = true → free_of a (strip s) = true.
Proof.
  intros H. unfold strip, rstrip. rewrite free_of_rev.
  apply free_of_lstrip. rewrite free_of_rev. by apply free_of_lstrip.
Qed.


(** * Where a match can begin *)

Lemma unmatched_free r u v :
  opens_with_lt r → free_of 60 u = true → unmatched r u v.
Proof.
  intros Hr. induction u as [|c u IH]; simpl.
  - intros _. apply unmatched_nil.
  - intros [Hc Hu]%andb_prop. apply unmatched_cons; [|by apply IH].
    apply match_can_start, Hr. by apply is_not_true in Hc.
Qed.

(** A stretch that begins with [<] and a character no match can go on
    with, and holds no other [<]. *)
Lemma unmatched_tag r c2 u v :
  opens_with_lt r → second_bad r c2 → free_of 60 (c2 :: u) = true →
  unmatched r (60%N :: c2 :: u) v.
Proof.
  intros Hr H2 Hu. apply unmatched_cons.
  - apply match_can_start, H2.
  - by apply unmatched_free.
Qed.



(** * The patterns of the rewriting steps *)

Lemma can_start_ilit_head a l' l r c s :
  str l = a :: l' → ieq a c = false → can_start (ilit l ++ r) (c :: s) = false.
Proof. intros E Hc. unfold ilit. rewrite E. simpl. by rewrite Hc. Qed.

Lemma can_start_lit_head a l' l r c s :
  str l = a :: l' → N.eqb a c = false → can_start (lit l ++ r) (c :: s) = false.
Proof. intros E Hc. unfold lit. rewrite E. simpl. by rewrite Hc. Qed.

Lemma ieq_lt c : c ≠ 60%N → ieq 60 c = false.
Proof. chars. Qed.

Lemma eqb_lt c : c ≠ 60%N → N.eqb 60 c = false.
Proof. intros H. apply N.eqb_neq. congruence. Qed.

Lemma rewrite_patterns_open r : r ∈ REWRITE_PATTERNS → opens_with_lt r.
Proof.
  unfold REWRITE_PATTERNS. rewrite !elem_of_cons, elem_of_nil.
  intros [->|[->|[->|[->|[->|[->|[]]]]]]] c s Hc.
  - apply (can_start_ilit_head 60 (str "%@")); [done|by apply ieq_lt].
  - unfold THREE_LINE_HEADER_RE, separator. rewrite <-!app_assoc.
    apply (can_start_ilit_head 60 (str "%")); [done|by apply ieq_lt].
  - apply (can_start_ilit_head 60 (str "asp:Content")); [done|by apply ieq_lt].
  - unfold ASP_CONTENT_END_RE. rewrite <-(app_nil_r (ilit _)).
    apply (can_start_ilit_head 60 (str "/asp:Content>")); [done|by apply ieq_lt].
  - apply (can_start_lit_head 60 (str "%--")); [done|by apply eqb_lt].
  - apply (can_start_lit_head 60 (str "%")); [done|by apply eqb_lt].
Qed.

Lemma rewrite_patterns_nil r : r ∈ REWRITE_PATTERNS → match_at r [] = None.
Proof.
  unfold REWRITE_PATTERNS. rewrite !elem_of_cons, elem_of_nil.
  intros [->|[->|[->|[->|[->|[->|[]]]]]]]; reflexivity.
Qed.

(** After [<], a match of a pattern of the server delimiters goes on with a
    percent sign. *)
Lemma second_bad_not_pct r c2 :
  r ∈ [PAGE_DIRECTIVE_RE; THREE_LINE_HEADER_RE; ASP_COMMENT_RE;
       ASP_SERVER_BLOCK_RE] →
  c2 ≠ 37%N → second_bad r c2.
Proof.
  rewrite !elem_of_cons, elem_of_nil. intros Hr Hc2.
  assert (ieq 37 c2 = false) as H by chars.
  assert (N.eqb 37 c2 = false) as H' by (apply N.eqb_neq; congruence).
  destruct Hr as [->|[->|[->|[->|[]]]]]; intros s.
  - change (can_start PAGE_DIRECTIVE_RE (60%N :: c2 :: s))
      with (ieq 60 60 && (ieq 37 c2 && can_start (skipn 2 PAGE_DIRECTIVE_RE) s)).
    by rewrite H.
  - change (can_start THREE_LINE_HEADER_RE (60%N :: c2 :: s))
      with (ieq 60 60 && (ieq 37 c2 && can_start (skipn 2 THREE_LINE_HEADER_RE) s)).
    by rewrite H.
  - change (can_start ASP_COMMENT_RE (60%N :: c2 :: s))
      with (N.eqb 60 60 && (N.eqb 37 c2 && can_start (skipn 2 ASP_COMMENT_RE) s)).
    by rewrite H'.
  - change (can_start ASP_SERVER_BLOCK_RE (60%N :: c2 :: s))
      with (N.eqb 60 60 && (N.eqb 37 c2 && can_start (skipn 2 ASP_SERVER_BLOCK_RE) s)).
    by rewrite H'.
Qed.

Lemma second_bad_start c2 : ieq 97 c2 = false → second_bad ASP_CONTENT_START_RE c2.
Proof.
  intros H s.
  change (can_start ASP_CONTENT_START_RE (60%N :: c2 :: s))
    with (ieq 60 60 && (ieq 97 c2 && can_start (skipn 2 ASP_CONTENT_START_RE) s)).
  by rewrite H.
Qed.

Lemma second_bad_end c2 : c2 ≠ 47%N → second_bad ASP_CONTENT_END_RE c2.
Proof.
  intros H s.
  change (can_start ASP_CONTENT_END_RE (60%N :: c2 :: s))
    with (ieq 60 60 && (ieq 47 c2 && can_start (skipn 2 ASP_CONTENT_END_RE) s)).
  replace (ieq 47 c2) with false; [done|]. symmetry. chars.
Qed.

(** The opening and the closing content tag. *)
Lemma start_exact T attrs O v :
  content_open T attrs O →
  match_at ASP_CONTENT_START_RE (O ++ v) = Some (Match None v).
Proof.
  intros (-> & HT & Ha). unfold match_at, ASP_CONTENT_START_RE.
  rewrite <-!app_assoc. rewrite mt_ilit by done. cbn [app].
  apply mt_greedy_run; [done|lia|by apply drop_while_id|].
  change (62%N :: v) with (str ">" ++ v). by apply mt_ilit_end.
Qed.

Lemma end_exact C v :
  content_close C → match_at ASP_CONTENT_END_RE (C ++ v) = Some (Match None v).
Proof. intros H. by apply mt_ilit_end. Qed.


(** Membership in a list that is written out. *)
Ltac in_list :=
  unfold REWRITE_PATTERNS in *;
  repeat match goal with
         | H : _ ∈ _ |- _ => rewrite ?elem_of_cons, ?elem_of_nil in H; revert H
         end;
  rewrite ?elem_of_cons, ?elem_of_nil; intuition (subst; auto 10).

(** * Stretches the rewriting steps pass over *)

Lemma later_steps_pass u post :
  (∀ r v, r ∈ [THREE_LINE_HEADER_RE; ASP_CONTENT_START_RE; ASP_CONTENT_END_RE;
               ASP_COMMENT_RE; ASP_SERVER_BLOCK_RE] → unmatched r u v) →
  remove_server_code (remove_content_tags (normalize_banners (u ++ post)))
  = u ++ remove_server_code (remove_content_tags (normalize_banners post)).
Proof.
  intros H.
  unfold remove_server_code, remove_content_tags, normalize_banners.
  rewrite !sub_pass; [done|apply H; in_list..].
Qed.

Lemma rewrite_text_pass u post :
  (∀ r v, r ∈ REWRITE_PATTERNS → unmatched r u v) →
  rewrite_text (u ++ post) = u ++ rewrite_text post.
Proof.
  intros H. unfold rewrite_text, remove_page_directives.
  rewrite sub_pass by (apply H; in_list).
  apply later_steps_pass. intros r v Hr. apply H.
  in_list.
Qed.

(** A page directive block at the head of the text is taken out, and the
    steps go on behind it. *)
Lemma remove_page_block P post :
  page_block P →
  remove_page_directives (P ++ post) = remove_page_directives post.
Proof.
  intros HP. unfold remove_page_directives.
  rewrite (sub_hit _ _ P post (Match None post)); [done| |by apply page_exact|done].
  destruct HP as (? & ? & ? & ? & -> & _). done.
Qed.

(** * Directives other than page directives *)






(** * Content tags *)

Lemma ilike_free_of_b a l T :
  forallb (λ c, negb (ieq c a)) l = true → ilike l T = true →
  free_of a T = true.
Proof.
  intros H. apply ilike_free_of. intros c Hc.
  rewrite forallb_forall in H. apply negb_true_iff. auto.
Qed.

Lemma content_open_unmatched r T attrs O v :
  content_open T attrs O → free_of 60 attrs = true →
  r ∈ [PAGE_DIRECTIVE_RE; THREE_LINE_HEADER_RE; ASP_CONTENT_END_RE;
       ASP_COMMENT_RE; ASP_SERVER_BLOCK_RE] →
  unmatched r O v.
Proof.
  intros (-> & HT & _) Ha Hr.
  destruct (ilike_cons_inv 60 (str "asp:Content") T HT) as (t1 & T1 & -> & H1 & HT1).
  destruct (ilike_cons_inv 97 (str "sp:Content") T1 HT1) as (t2 & T2 & -> & H2 & HT2).
  assert (t1 = 60%N) as -> by (revert H1; chars).
  assert (t2 ≠ 37%N ∧ t2 ≠ 47%N ∧ t2 ≠ 60%N) as (Hp & Hs & Hl) by (revert H2; chars).
  cbn [app]. apply unmatched_tag.
  - apply rewrite_patterns_open. in_list.
  - revert Hr. rewrite !elem_of_cons, elem_of_nil.
    intros [->|[->|[->|[->|[->|[]]]]]];
      first [by apply second_bad_end | apply second_bad_not_pct; [in_list|done]].
  - change (t2 :: T2 ++ attrs ++ [62%N]) with ([t2] ++ T2 ++ attrs ++ [62%N]).
    rewrite !free_of_app. split_and!; [|by apply (ilike_free_of_b 60 (str "sp:Content"))|done..].
    simpl. rewrite andb_true_r. by apply is_not_true.
Qed.

Lemma content_close_unmatched r C v :
  content_close C →
  r ∈ [PAGE_DIRECTIVE_RE; THREE_LINE_HEADER_RE; ASP_CONTENT_START_RE;
       ASP_COMMENT_RE; ASP_SERVER_BLOCK_RE] →
  unmatched r C v.
Proof.
  intros HC Hr. unfold content_close in HC.
  destruct (ilike_cons_inv 60 (str "/asp:Content>") C HC) as (t1 & T1 & -> & H1 & HT1).
  destruct (ilike_cons_inv 47 (str "asp:Content>") T1 HT1) as (t2 & T2 & -> & H2 & HT2).
  assert (t1 = 60%N) as -> by (revert H1; chars).
  assert (t2 = 47%N) as -> by (revert H2; chars).
  apply unmatched_tag.
  - apply rewrite_patterns_open. in_list.
  - revert Hr. rewrite !elem_of_cons, elem_of_nil.
    intros [->|[->|[->|[->|[->|[]]]]]];
      first [by apply second_bad_start | apply second_bad_not_pct; [in_list|done]].
  - change (47%N :: T2) with ([47%N] ++ T2).
    rewrite free_of_app. split; [done|].
    by apply (ilike_free_of_b 60 (str "asp:Content>")).
Qed.






(** * The converted comment *)

Lemma second_bad_bang r : r ∈ REWRITE_PATTERNS → second_bad r 33.
Proof.
  unfold REWRITE_PATTERNS. rewrite !elem_of_cons, elem_of_nil.
  intros [->|[->|[->|[->|[->|[->|[]]]]]]];
    first [by apply second_bad_start | by apply second_bad_end
          | apply second_bad_not_pct; [in_list|done]].
Qed.

Lemma banner_comment_unmatched r g v :
  r ∈ REWRITE_PATTERNS → free_of 60 g = true →
  unmatched r (banner_comment g) v.
Proof.
  intros Hr Hg. unfold banner_comment.
  change (str "<!-- ----------- " ++ strip g ++ str " ----------- -->")
    with (60%N :: 33%N :: str "-- ----------- " ++ strip g ++ str " ----------- -->").
  apply unmatched_tag; [by apply rewrite_patterns_open|by apply second_bad_bang|].
  change (33%N :: str "-- ----------- " ++ strip g ++ str " ----------- -->")
    with (str "!-- ----------- " ++ strip g ++ str " ----------- -->").
  rewrite !free_of_app. split_and!; [done|by apply free_of_strip|done].
Qed.




(** * The banner pattern *)

Lemma drop_while_blank_then p w c x :
  (∀ a, isspace a = true → p a = false) → p c = false → blank w = true →
  drop_while p (w ++ c :: x) = w ++ c :: x.
Proof.
  intros Hp Hc Hw. destruct w as [|a w]; simpl.
  - by rewrite Hc.
  - simpl in Hw. apply andb_prop in Hw as [Ha _]. by rewrite (Hp a Ha).
Qed.

Lemma sep_exact S r o g s m :
  sep_line S → mt r o g s = Some m →
  mt (separator ++ r) o g (S ++ s) = Some m.
Proof.
  intros (w & d & w' & -> & Hw & Hd3 & Hd & Hw') Hm.
  unfold separator, ws_star. rewrite <-!(assoc_L (++)).
  rewrite mt_ilit by reflexivity. cbn [app].
  apply mt_greedy_run; [done|lia| |].
  { destruct d as [|c d]; [simpl in Hd3; lia|]. cbn [forallb] in Hd.
    apply andb_prop in Hd as [Hc _]. apply N.eqb_eq in Hc as <-. done. }
  apply mt_greedy_run; [done|lia| |].
  { change (str "%>" ++ s) with (37%N :: 62%N :: s).
    apply drop_while_blank_then; [|done..]. intros a Ha.
    apply N.eqb_neq. intros <-. done. }
  apply mt_greedy_run; [done|lia|done|].
  by rewrite mt_ilit by reflexivity.
Qed.

(** What follows the text of the banner, matched from where the text
    ends. *)
Lemma tail_exact o g wd we wf S2 post :
  blank wd = true → blank we = true → blank wf = true → sep_line S2 →
  mt banner_tail o g (wd ++ banner_close we wf S2 ++ post)
  = Some (Match (Some (take (length o - length
            (wd ++ banner_close we wf S2 ++ post)) o)) post).
Proof.
  intros Hwd Hwe Hwf HS2. unfold banner_tail, ws_star, banner_close.
  rewrite <-!(assoc_L (++)). cbn [app mt].
  apply mt_greedy_run; [done|lia|done|].
  rewrite mt_ilit by reflexivity. cbn [app].
  apply mt_greedy_run; [done|lia|done|].
  rewrite mt_ilit by reflexivity. cbn [app].
  apply mt_greedy_run; [done|lia| |].
  { destruct HS2 as (? & ? & ? & -> & _). done. }
  rewrite <-(app_nil_r separator). by apply sep_exact.
Qed.

Lemma sep_sound r o g s m :
  sem (separator ++ r) o g s m →
  ∃ S s', s = S ++ s' ∧ sep_line S ∧ sem r o g s' m.
Proof.
  unfold separator, ws_star. rewrite <-!(assoc_L (++)).
  intros (T1 & s1 & -> & HT1 & H)%sem_ilit.
  cbn [app sem] in H. destruct H as (w & s2 & -> & Hw & _ & H).
  destruct H as (d & s3 & -> & Hd & Hd3 & H).
  destruct H as (w' & s4 & -> & Hw' & _ & H).
  apply sem_ilit in H as (T2 & s5 & -> & HT2 & H).
  apply ilike_uncased in HT1 as ->; [|reflexivity].
  apply ilike_uncased in HT2 as ->; [|reflexivity].
  exists (str "<%" ++ w ++ d ++ w' ++ str "%>"), s5. split_and!.
  - by rewrite <-!(assoc_L (++)).
  - by exists w, d, w'.
  - done.
Qed.

Lemma tail_sound o g s m : mt banner_tail o g s = Some m → closing_at s.
Proof.
  intros H%mt_sound. unfold banner_tail, ws_star in H. cbn [app sem] in H.
  destruct H as (w1 & s1 & -> & Hw1 & _ & H).
  apply sem_ilit in H as (T1 & s2 & -> & HT1 & H).
  cbn [app sem] in H. destruct H as (we & s3 & -> & Hwe & _ & H).
  apply sem_ilit in H as (T2 & s4 & -> & HT2 & H).
  cbn [app sem] in H. destruct H as (wf & s5 & -> & Hwf & _ & H).
  rewrite <-(app_nil_r separator) in H.
  apply sep_sound in H as (S2 & s6 & -> & HS2 & _).
  apply ilike_uncased in HT1 as ->; [|reflexivity].
  apply ilike_uncased in HT2 as ->; [|reflexivity].
  exists w1, we, wf, S2, s6. split_and!; [|done..].
  unfold banner_close. by rewrite <-!(assoc_L (++)).
Qed.

Lemma blank_app u v : blank (u ++ v) = blank u && blank v.
Proof. apply forallb_app. Qed.

Lemma blank_rev w : blank (rev w) = blank w.
Proof. apply forallb_rev. Qed.

Lemma free_of_drop a i s : free_of a s = true → free_of a (drop i s) = true.
Proof.
  intros H. rewrite <-(take_drop i s) in H. by apply free_of_app in H as [_ H].
Qed.

(** A text without a percent sign cannot hold an earlier end of the
    banner. *)
Lemma plain_text_closes_first x we wf S2 post :
  free_of 37 x = true → blank we = true →
  closes_first x (banner_close we wf S2 ++ post).
Proof.
  intros Hx Hwe j Hj (w1 & we' & wf' & S2' & rest & E & Hw1 & Hwe' & _ & _).
  unfold banner_close in E. rewrite <-!(assoc_L (++)) in E.
  change (str "%>") with [37; 62]%N in E. change (str "--") with [45; 45]%N in E.
  assert ((drop j x ++ [45; 45]%N ++ we) ++ 37%N :: 62%N :: wf ++ S2 ++ post
          = (w1 ++ [45; 45]%N ++ we') ++ 37%N :: 62%N :: wf' ++ S2' ++ rest) as E'.
  { rewrite <-!(assoc_L (++)). exact E. }
  apply (span_unique (is_not 37)) in E' as (E' & _ & _); [| | |done..].
  2:{ rewrite !forallb_app_true. split_and!; [by apply free_of_drop|done|].
      by apply (blank_free_of 37). }
  2:{ rewrite !forallb_app_true. split_and!; [|done|];
        by apply (blank_free_of 37). }
  apply (f_equal (@rev N)) in E'. rewrite !rev_app_distr in E'.
  change (rev [45; 45]%N) with [45; 45]%N in E'.
  rewrite <-!(assoc_L (++)) in E'. cbn [app] in E'.
  apply (span_unique isspace) in E' as (_ & _ & E');
    [|by rewrite forallb_rev..|done|done].
  injection E' as E'. apply (f_equal (@rev N)) in E'.
  rewrite !rev_involutive in E'. congruence.
Qed.

Lemma blank_tail_false e wd :
  e ≠ [] → tight_head (rev e) = true → blank (e ++ wd) = false.
Proof.
  intros He Ht. rewrite blank_app. apply andb_false_intro1.
  rewrite <-blank_rev. destruct (rev e) as [|c r] eqn:Er.
  - apply (f_equal (@rev N)) in Er. rewrite rev_involutive in Er. done.
  - simpl in *. apply negb_true_iff in Ht. by rewrite Ht.
Qed.

Lemma rev_drop_head (s : list N) i :
  i < length s → tight_head (rev (drop i s)) = tight_head (rev s).
Proof.
  intros Hi. rewrite <-(take_drop i s) at 2. rewrite rev_app_distr.
  destruct (rev (drop i s)) as [|c r] eqn:E; [|done].
  apply (f_equal length) in E. rewrite length_rev, length_drop in E.
  simpl in E. lia.
Qed.

(** The banner pattern on a banner: it matches all of it and captures the
    trimmed text. *)
Lemma banner_exact S1 wa wb x we wf S2 post :
  banner_parts S1 wa wb we wf S2 →
  closes_first x (banner_close we wf S2 ++ post) →
  match_at THREE_LINE_HEADER_RE (banner_text S1 wa wb x we wf S2 ++ post)
  = Some (Match (Some (strip x)) post).
Proof.
  intros (HS1 & HS2 & Hwa & Hwb & Hwe & Hwf) Hfirst.
  unfold match_at, THREE_LINE_HEADER_RE, ws_star, banner_text.
  rewrite <-!(assoc_L (++)).
  apply sep_exact; [done|]. cbn [app].
  apply mt_greedy_run; [done|lia|done|].
  rewrite mt_ilit by reflexivity. cbn [app].
  apply mt_greedy_run; [done|lia|done|].
  rewrite mt_ilit by reflexivity. cbn [app].
  apply mt_greedy_longest; [lia|].
  rewrite <-lstrip_drop_while, lstrip_app_tight by done.
  destruct (lstrip_split x) as (wc & Ex & Hwc).
  destruct (rstrip_split (lstrip x)) as (wd & Ey & Hwd & Htight).
  fold (strip x) in Ey, Htight. rewrite Ey, <-!(assoc_L (++)).
  cbn [mt].
  rewrite rep_lazy_skip.
  - apply rep_lazy_here. rewrite tail_exact by done.
    by rewrite take_app_diff.
  - clear. by induction (strip x).
  - intros i Hi.
    destruct (mt banner_tail _ _ _) as [m|] eqn:E; [|done]. exfalso.
    apply tail_sound in E.
    apply (Hfirst (length wc + i)).
    + rewrite Ex, Ey. rewrite drop_app_ge, drop_app_le by lia.
      replace (length wc + i - length wc) with i by lia.
      apply blank_tail_false.
      * intros E'%(f_equal length). rewrite length_drop in E'. simpl in E'. lia.
      * by rewrite rev_drop_head.
    + rewrite Ex at 1. rewrite Ey at 1.
      rewrite drop_app_ge, drop_app_le by lia.
      replace (length wc + i - length wc) with i by lia.
      by rewrite <-!(assoc_L (++)).
Qed.




(** * Steps that only delete *)

Lemma sub_from_erase_sublist r :
  ∀ s skip, sub_from r erase skip s `sublist_of` s.
Proof.
  induction s as [|c s IH]; intros skip; simpl.
  - destruct skip; [|done]. by destruct (match_at r []).
  - destruct skip as [|n]; [|by apply sublist_cons].
    destruct (match_at r (c :: s)) as [m|]; [|by apply sublist_skip].
    destruct (_ - _) as [|n].
    + by apply sublist_skip.
    + by apply sublist_cons.
Qed.

Lemma sub_erase_sublist r s : sub r erase s `sublist_of` s.
Proof. apply sub_from_erase_sublist. Qed.

Lemma lstrip_sublist s : lstrip s `sublist_of` s.
Proof.
  induction s as [|c s IH]; simpl; [done|].
  destruct (isspace c); [by apply sublist_cons|done].
Qed.

Lemma sublist_rev {A} (l1 l2 : list A) :
  l1 `sublist_of` l2 → rev l1 `sublist_of` rev l2.
Proof.
  induction 1 as [|x l1 l2 _ IH|x l1 l2 _ IH]; simpl.
  - done.
  - by apply sublist_app.
  - by apply sublist_inserts_r.
Qed.

Lemma strip_sublist s : strip s `sublist_of` s.
Proof.
  unfold strip, rstrip. etrans; [|apply lstrip_sublist].
  rewrite <- (rev_involutive (lstrip s)) at 2.
  apply sublist_rev, lstrip_sublist.
Qed.

(** X1: the removal steps only delete.  The text after the removal of the
    page directives, of the content tags or of the server code, and the
    text after the final trim, is the text before with characters taken
    out: none is added, changed or moved.  Only the conversion of a banner
    writes characters; on a text where it changes nothing the whole body
    is made of characters of the input, in their order. *)
Theorem removal_steps_only_delete t :
  remove_page_directives t `sublist_of` t
  ∧ remove_content_tags t `sublist_of` t
  ∧ remove_server_code t `sublist_of` t
  ∧ strip t `sublist_of` t
  ∧ (normalize_banners (remove_page_directives t) = remove_page_directives t →
     body_of t `sublist_of` t).
Proof.
  assert (∀ u, remove_content_tags u `sublist_of` u) as Hc.
  { intros u. unfold remove_content_tags.
    etrans; apply sub_erase_sublist. }
  assert (∀ u, remove_server_code u `sublist_of` u) as Hs.
  { intros u. unfold remove_server_code.
    etrans; apply sub_erase_sublist. }
  split_and!; [apply sub_erase_sublist|done|done|apply strip_sublist|].
  intros Hb. unfold body_of, rewrite_text. rewrite Hb.
  etrans; [apply strip_sublist|]. etrans; [apply Hs|]. etrans; [apply Hc|].
  apply sub_erase_sublist.
Qed.

(** * The trimmed body *)

Lemma lstrip_blank w : blank w = true → lstrip w = [].
Proof.
  induction w as [|c w IH]; simpl; [done|].
  intros [Hc Hw]%andb_prop. rewrite Hc. by apply IH.
Qed.

Lemma strip_blank w : blank w = true → strip w = [].
Proof. intros H. unfold strip. by rewrite lstrip_blank. Qed.

(** X2: the body is trimmed.  For every input the body neither begins nor
    ends with a white space character (the set of [str.isspace], which
    holds the no-break space and the ideographic space), trimming it again
    changes nothing, and it is empty when white space is all the rewriting
    steps leave. *)
Theorem body_is_trimmed t :
  tight_head (body_of t) = true
  ∧ tight_head (rev (body_of t)) = true
  ∧ strip (body_of t) = body_of t
  ∧ (blank (rewrite_text t) = true → body_of t = [])
  ∧ isspace 160 = true ∧ isspace 12288 = true.
Proof.
  unfold body_of. destruct (strip_tight (rewrite_text t)) as [H1 H2].
  split_and!; [done|done|apply strip_strip|apply strip_blank|done|done].
Qed.

(** * Page directives *)

Lemma first_block_unmatched t pre D post :
  first_block t pre D post → unmatched PAGE_DIRECTIVE_RE pre (D ++ post).
Proof.
  intros (-> & _ & Hfirst) j Hj.
  destruct (match_at PAGE_DIRECTIVE_RE (drop j pre ++ D ++ post)) as [m|] eqn:E;
    [|done].
  exfalso. apply (Hfirst j Hj). apply page_starts_iff.
  rewrite drop_app_le by lia. by rewrite E.
Qed.

Lemma no_page_unmatched u :
  (∀ j, ¬ page_starts (drop j u)) → unmatched PAGE_DIRECTIVE_RE u [].
Proof.
  intros H j Hj. rewrite app_nil_r.
  destruct (match_at PAGE_DIRECTIVE_RE (drop j u)) as [m|] eqn:E; [|done].
  exfalso. apply (H j), page_starts_iff. by rewrite E.
Qed.

Lemma remove_page_blocks Ds x :
  Forall page_block Ds →
  remove_page_directives (concat Ds ++ x) = remove_page_directives x.
Proof.
  induction 1 as [|D Ds HD _ IH]; [done|].
  simpl. rewrite <- app_assoc. by rewrite remove_page_block.
Qed.

(** X3: every page directive is removed, not only the one the title is
    read from.  The first page directive block of the text is taken out
    and the removal goes on behind it, while the title is the one of that
    first block; page directive blocks that follow each other at the head
    of a text leave the body the text behind them has; a text in which no
    page directive begins is left as it is by this step. *)
Theorem page_directives_all_removed t pre D post :
  first_block t pre D post →
  remove_page_directives t = pre ++ remove_page_directives post
  ∧ extract_title t = title_in D
  ∧ (∀ Ds x, Forall page_block Ds →
       remove_page_directives (concat Ds ++ x) = remove_page_directives x
       ∧ body_of (concat Ds ++ x) = body_of x)
  ∧ (∀ u, (∀ j, ¬ page_starts (drop j u)) → remove_page_directives u = u).
Proof.
  intros Hb. split_and!.
  - pose proof (first_block_unmatched _ _ _ _ Hb) as Hu.
    destruct Hb as (-> & HD & _). unfold remove_page_directives.
    rewrite sub_pass by done. f_equal. by apply remove_page_block.
  - by apply (extract_title_first t pre D post).
  - intros Ds x HDs. pose proof (remove_page_blocks Ds x HDs) as E.
    split; [done|]. unfold body_of, rewrite_text. by rewrite E.
  - intros u Hu. apply sub_id; [by apply no_page_unmatched|].
    apply rewrite_patterns_nil. in_list.
Qed.

Lemma page_directives_all_removed_witness :
  remove_page_directives
    (str ("<html>" ++ "<%@ Page Language=" ++ QT ++ "C#" ++ QT ++ " %>"
          ++ "<p>x</p>" ++ "<%@ page Title=" ++ QT ++ "Late" ++ QT ++ "%>"))
  = str "<html>"
    ++ remove_page_directives
         (str ("<p>x</p>" ++ "<%@ page Title=" ++ QT ++ "Late" ++ QT ++ "%>")).
Proof.
  refine (proj1 (page_directives_all_removed _ (str "<html>")
    (str ("<%@ Page Language=" ++ QT ++ "C#" ++ QT ++ " %>"))
    (str ("<p>x</p>" ++ "<%@ page Title=" ++ QT ++ "Late" ++ QT ++ "%>")) _)).
  split_and!; [reflexivity| |].
  - exists [32%N], (str "Page"), 32%N,
      (str ("Language=" ++ QT ++ "C#" ++ QT ++ " ")).
    split_and!; reflexivity.
  - intros j Hj. apply (no_page_before _ 6); [vm_compute; reflexivity|exact Hj].
Defined.

(** * The title *)

Lemma free_or_first a s :
  free_of a s = true ∨ ∃ u v, s = u ++ a :: v ∧ free_of a u = true.
Proof.
  induction s as [|c s IH]; [by left|].
  destruct (N.eqb_spec c a) as [->|Hc].
  - right. by exists [], s.
  - destruct IH as [H|(u & v & -> & Hu)].
    + left. simpl. rewrite H, andb_true_r. by apply is_not_true.
    + right. exists (c :: u), v. split; [done|].
      simpl. rewrite Hu, andb_true_r. by apply is_not_true.
Qed.

(** No value of a title attribute of a page directive block holds a
    percent sign: the block has none between its delimiters. *)
Lemma title_attr_no_pct D p v s :
  page_block D → D = p ++ s → title_attr v s → free_of 37 v = true.
Proof.
  intros HD E (T & w3 & w4 & rest & -> & HT & _ & _ & _ & _).
  destruct (page_block_shape D HD) as (β & Eβ & Hβ).
  destruct (free_or_first 37 v) as [H|(v1 & v2 & -> & Hv1)]; [done|exfalso].
  set (A := p ++ T ++ w3 ++ 61%N :: w4 ++ 34%N :: v1).
  assert (D = A ++ 37%N :: (v2 ++ 34%N :: rest)) as EA.
  { rewrite E. unfold A. repeat (rewrite <- app_assoc; cbn [app]). done. }
  assert (3 ≤ length A) as HA.
  { unfold A. rewrite !length_app, (ilike_length _ _ HT). simpl. lia. }
  assert (β ++ 37%N :: [62%N] = drop 3 A ++ 37%N :: (v2 ++ 34%N :: rest)) as E3.
  { apply (f_equal (drop 3)) in EA. rewrite Eβ in EA at 1.
    rewrite drop_app_le in EA by done. rewrite <- EA. simpl.
    by rewrite drop_0. }
  destruct (free_or_first 37 (drop 3 A)) as [H|(a1 & a2 & Ea & Ha1)].
  - destruct (span_unique (is_not 37) β (drop 3 A) 37%N 37%N [62%N]
                (v2 ++ 34%N :: rest) Hβ H eq_refl eq_refl E3) as (_ & _ & E4).
    destruct v2 as [|? [|? ?]]; discriminate E4.
  - rewrite Ea, <- app_assoc, <- app_comm_cons in E3.
    destruct (span_unique (is_not 37) β a1 37%N 37%N [62%N]
                (a2 ++ 37%N :: v2 ++ 34%N :: rest) Hβ Ha1 eq_refl eq_refl E3)
      as (_ & _ & E4).
    destruct a2 as [|? [|? ?]]; discriminate E4.
Qed.

(** X4: what a title can be.  For every input the title is not empty and
    holds neither a double quote nor a percent sign: it is the default, or
    a value the title pattern took from between two double quotes inside
    a page directive block, which has no percent sign between its
    delimiters. *)
Theorem title_is_never_empty t :
  extract_title t ≠ []
  ∧ free_of 34 (extract_title t) = true
  ∧ free_of 37 (extract_title t) = true.
Proof.
  unfold extract_title.
  destruct (search PAGE_DIRECTIVE_RE t) as [[pre page_match]|] eqn:Hs;
    [|by split_and!].
  destruct (search_first_block _ _ _ Hs) as (_ & HD & _).
  set (D := matched (drop (length pre) t) page_match) in *.
  unfold title_in.
  destruct (search TITLE_RE D) as [[p tm]|] eqn:Ht; [|by split_and!].
  destruct (search_Some _ _ _ _ Ht) as (s & ED & Hm & _).
  destruct (title_sound _ _ Hm) as (v & Hv & ->).
  pose proof (title_attr_no_pct D p v s HD ED Hv) as Hpct.
  destruct Hv as (T & w3 & w4 & rest & _ & _ & _ & _ & Hne & Hq).
  by split_and!.
Qed.

(** * Texts the rewriting steps leave as they are *)

Lemma rewrite_text_id t :
  (∀ r, r ∈ REWRITE_PATTERNS → unmatched r t []) → rewrite_text t = t.
Proof.
  intros H.
  assert (∀ r f, r ∈ REWRITE_PATTERNS → sub r f t = t) as Hid.
  { intros r f Hr. apply sub_id; [by apply H|by apply rewrite_patterns_nil]. }
  unfold rewrite_text, remove_server_code, remove_content_tags,
    normalize_banners, remove_page_directives.
  rewrite !Hid; [done|in_list..].
Qed.

Lemma unmatched_no_page t :
  unmatched PAGE_DIRECTIVE_RE t [] → ∀ j, ¬ page_starts (drop j t).
Proof.
  intros H j [m Hm]%page_starts_iff.
  destruct (decide (j < length t)) as [Hj|Hj].
  - specialize (H j Hj). rewrite app_nil_r in H. congruence.
  - rewrite drop_ge in Hm by lia. vm_compute in Hm. discriminate Hm.
Qed.

Lemma can_start_ilike L r : ∀ s,
  can_start (map (λ a, One (ieq a)) L ++ r) s = true → istarts L s = true.
Proof.
  induction L as [|a L IH]; intros s; simpl; [done|].
  destruct s as [|c s]; [done|].
  intros [Hc Hs]%andb_prop. rewrite Hc. by apply IH.
Qed.

Lemma can_start_literal L r : ∀ s,
  can_start (map (λ a, One (N.eqb a)) L ++ r) s = true →
  starts_with L s = true.
Proof.
  induction L as [|a L IH]; intros s; simpl; [done|].
  destruct s as [|c s]; [done|].
  intros [Hc Hs]%andb_prop. rewrite N.eqb_sym, Hc. by apply IH.
Qed.

Lemma istarts_server L s :
  istarts (60 :: 37 :: L)%N s = true → starts_with (str "<%") s = true.
Proof.
  destruct s as [|c1 [|c2 s]]; cbn [istarts]; rewrite ?andb_false_r;
    try done.
  intros [H1 [H2 _]%andb_prop]%andb_prop.
  assert (c1 = 60%N) as -> by (revert H1; chars).
  assert (c2 = 37%N) as -> by (revert H2; chars). reflexivity.
Qed.

Lemma starts_with_server L s :
  starts_with (60 :: 37 :: L)%N s = true → starts_with (str "<%") s = true.
Proof.
  destruct s as [|c1 [|c2 s]]; cbn [starts_with]; rewrite ?andb_false_r;
    try done.
  intros [H1 [H2 _]%andb_prop]%andb_prop.
  apply N.eqb_eq in H1 as ->. apply N.eqb_eq in H2 as ->. reflexivity.
Qed.

Lemma plain_at_no_match r s :
  r ∈ REWRITE_PATTERNS → plain_at s = true → match_at r s = None.
Proof.
  intros Hr Hp. apply match_can_start.
  destruct (can_start r s) eqn:E; [exfalso|done].
  unfold plain_at in Hp.
  apply andb_prop in Hp as [[H1 H2]%andb_prop H3].
  apply negb_true_iff in H1, H2, H3.
  revert Hr E. unfold REWRITE_PATTERNS. rewrite !elem_of_cons, elem_of_nil.
  intros [->|[->|[->|[->|[->|[->|[]]]]]]] E.
  - apply (can_start_ilike (str "<%@")) in E.
    apply (istarts_server [64%N]) in E. congruence.
  - unfold THREE_LINE_HEADER_RE, separator in E.
    rewrite <- !app_assoc in E. apply (can_start_ilike (str "<%")) in E.
    apply (istarts_server []) in E. congruence.
  - apply (can_start_ilike (str "<asp:Content")) in E. congruence.
  - unfold ASP_CONTENT_END_RE, ilit in E.
    rewrite <- (app_nil_r (map _ _)) in E.
    apply can_start_ilike in E. congruence.
  - apply (can_start_literal (str "<%--")) in E.
    apply (starts_with_server [45; 45]%N) in E. congruence.
  - apply (can_start_literal (str "<%")) in E. congruence.
Qed.

Lemma plain_unmatched r t :
  r ∈ REWRITE_PATTERNS → plain t = true → unmatched r t [].
Proof.
  intros Hr. induction t as [|c t IH]; [intros _; apply unmatched_nil|].
  cbn [plain]. intros [Hc Ht]%andb_prop. apply unmatched_cons.
  - rewrite app_nil_r. by apply plain_at_no_match.
  - by apply IH.
Qed.

(** X5: markup without server delimiters and content tags passes through.
    A text in which the two characters of the server opening delimiter
    begin nowhere, and neither an opening nor a closing content tag in any
    case, is changed by no rewriting step: the body is the text, trimmed,
    and the title is the default. *)
Theorem plain_text_passes_through t :
  plain t = true →
  rewrite_text t = t
  ∧ body_of t = strip t
  ∧ extract_title t = str "Untitled Page"
  ∧ html_of t = page_with (str "Untitled Page") (strip t).
Proof.
  intros Hp.
  assert (rewrite_text t = t) as Hid.
  { apply rewrite_text_id. intros r Hr. by apply plain_unmatched. }
  assert (extract_title t = str "Untitled Page") as Ht.
  { apply extract_title_none, unmatched_no_page, plain_unmatched; [in_list|done]. }
  split_and!; [done|by unfold body_of; rewrite Hid|done|].
  rewrite html_of_page_with, Ht. unfold body_of. by rewrite Hid.
Qed.

Lemma plain_text_passes_through_witness :
  body_of (str ("  <h1 class=" ++ QT ++ "t" ++ QT ++ ">100 % </h1>" ++ NL
                ++ "<asp:Label>x</asp:Label> <b>a < b</b> " ++ NL))
  = strip (str ("  <h1 class=" ++ QT ++ "t" ++ QT ++ ">100 % </h1>" ++ NL
                ++ "<asp:Label>x</asp:Label> <b>a < b</b> " ++ NL)).
Proof.
  refine (proj1 (proj2 (plain_text_passes_through _ _))).
  vm_compute. reflexivity.
Defined.

(** * A percent sign among the attributes *)

Lemma page_needs_close w1 T c b rest :
  blank w1 = true → ilike (str "Page") T = true → isspace c = true →
  free_of 37 b = true → starts_with [62%N] rest = false →
  match_at PAGE_DIRECTIVE_RE (str "<%@" ++ w1 ++ T ++ c :: b ++ 37%N :: rest)
  = None.
Proof.
  intros Hw HT Hc Hb Hrest.
  destruct (match_at PAGE_DIRECTIVE_RE _) as [m|] eqn:E; [exfalso|done].
  destruct (page_sound _ _ E) as (D & (w1' & T' & c' & b' & -> & Hw' & HT' & Hc' & Hb') & Es & _).
  assert ((w1 ++ T ++ c :: b) ++ 37%N :: rest
          = (w1' ++ T' ++ c' :: b') ++ 37%N :: 62%N :: m_rest m) as E2.
  { change (str "<%@" ++ ?x) with (60%N :: 37%N :: 64%N :: x) in Es.
    injection Es as Es. change (str "%>") with [37; 62]%N in Es.
    repeat (rewrite <- app_assoc in Es; cbn [app] in Es).
    repeat (rewrite <- app_assoc; cbn [app]). exact Es. }
  destruct (span_unique (is_not 37) (w1 ++ T ++ c :: b) (w1' ++ T' ++ c' :: b')
              37%N 37%N rest (62%N :: m_rest m)) as (_ & _ & ->);
    [by apply page_attrs_free|by apply page_attrs_free|done|done|done|].
  discriminate Hrest.
Qed.

(** X6: a percent sign among the attributes.  A page directive whose
    attributes hold a percent sign that is not the one of the closing
    delimiter is no page directive block: the pattern does not match
    there.  With no other markup around it the title is the default and
    the directive is left in the body as it was written. *)
Theorem percent_in_attribute_defeats_directive w1 T c b rest :
  blank w1 = true → ilike (str "Page") T = true → isspace c = true →
  free_of 37 b = true → starts_with [62%N] rest = false →
  match_at PAGE_DIRECTIVE_RE (str "<%@" ++ w1 ++ T ++ c :: b ++ 37%N :: rest)
  = None
  ∧ (∀ pre,
       free_of 60 pre = true → free_of 60 b = true → free_of 60 rest = true →
       extract_title (pre ++ str "<%@" ++ w1 ++ T ++ c :: b ++ 37%N :: rest)
       = str "Untitled Page"
       ∧ body_of (pre ++ str "<%@" ++ w1 ++ T ++ c :: b ++ 37%N :: rest)
         = strip (pre ++ str "<%@" ++ w1 ++ T ++ c :: b ++ 37%N :: rest)).
Proof.
  intros Hw HT Hc Hb Hrest.
  pose proof (page_needs_close w1 T c b rest Hw HT Hc Hb Hrest) as Hno.
  split; [done|]. intros pre Hpre Hbl Hrl.
  set (t := pre ++ str "<%@" ++ w1 ++ T ++ c :: b ++ 37%N :: rest).
  assert (∀ r, r ∈ REWRITE_PATTERNS → unmatched r t []) as Hu.
  { intros r Hr. unfold t.
    apply unmatched_app; [apply unmatched_free; [by apply rewrite_patterns_open|done]|].
    change (str "<%@" ++ ?x) with (60%N :: ([37; 64]%N ++ x)).
    apply unmatched_cons.
    - rewrite app_nil_r.
      change (60%N :: [37; 64]%N ++ ?x) with (str "<%@" ++ x).
      revert Hr. unfold REWRITE_PATTERNS. rewrite !elem_of_cons, elem_of_nil.
      intros [->|[->|[->|[->|[->|[->|[]]]]]]];
        [done|apply match_can_start; vm_compute; reflexivity..].
    - apply unmatched_free; [by apply rewrite_patterns_open|].
      rewrite !free_of_app. split_and!; [done| | |].
      + by apply blank_free_of.
      + by apply (ilike_free_of_b 60 (str "Page")).
      + change (c :: b ++ 37%N :: rest) with ([c] ++ b ++ [37%N] ++ rest).
        rewrite !free_of_app. split_and!; [|done..].
        simpl. rewrite andb_true_r. revert Hc. chars. }
  split.
  - apply extract_title_none, unmatched_no_page, Hu. in_list.
  - unfold body_of. by rewrite rewrite_text_id.
Qed.

Lemma percent_in_attribute_defeats_directive_witness :
  body_of (str ("<%@ Page Title=" ++ QT ++ "100% sure" ++ QT ++ " %>" ++ NL
                ++ "text"))
  = strip (str ("<%@ Page Title=" ++ QT ++ "100% sure" ++ QT ++ " %>" ++ NL
                ++ "text")).
Proof.
  refine (proj2 (proj2 (percent_in_attribute_defeats_directive
    [32%N] (str "Page") 32%N (str ("Title=" ++ QT ++ "100"))
    (str (" sure" ++ QT ++ " %>" ++ NL ++ "text")) _ _ _ _ _) [] _ _ _));
    reflexivity.
Defined.

(** * Server code blocks and server comments *)

Lemma forallb_any x : forallb any_char x = true.
Proof. by induction x. Qed.

Lemma mt_literal L r o g : ∀ s,
  mt (map (λ a, One (N.eqb a)) L ++ r) o g s =
    if starts_with L s then mt r o g (drop (length L) s) else None.
Proof.
  induction L as [|a L IH]; intros s; [done|].
  destruct s as [|c s]; [done|]. cbn [map app mt starts_with length drop].
  rewrite (N.eqb_sym a c). destruct (N.eqb c a); [apply IH|done].
Qed.

Lemma mt_literal_end L o g s :
  mt (map (λ a, One (N.eqb a)) L) o g s =
    if starts_with L s then Some (Match g (drop (length L) s)) else None.
Proof. rewrite <- (app_nil_r (map _ L)). by rewrite mt_literal. Qed.

Lemma starts_with_app_long l : ∀ u v,
  length l ≤ length u → starts_with l (u ++ v) = starts_with l u.
Proof.
  induction l as [|a l IH]; intros u v Hl; [done|].
  destruct u as [|c u]; [simpl in Hl; lia|].
  cbn [app starts_with]. rewrite IH; [done|]. simpl in Hl. lia.
Qed.

Lemma starts_with_self l v : starts_with l (l ++ v) = true.
Proof. induction l as [|a l IH]; [done|]. simpl. by rewrite N.eqb_refl. Qed.

Lemma closes_at_end_spec close x post i :
  closes_at_end close x = true → i < length x →
  starts_with close (drop i x ++ close ++ post) = false.
Proof.
  unfold closes_at_end. rewrite forallb_forall. intros H Hi.
  specialize (H i). rewrite negb_true_iff in H.
  rewrite drop_app_le in H by lia. rewrite app_assoc, starts_with_app_long.
  - apply H, in_seq. lia.
  - rewrite length_app. lia.
Qed.

(** The lazy repetition of any character ends where [close] begins first. *)
Lemma lazy_until_close close x post o g :
  closes_at_end (str close) x = true →
  mt (Rep false 0 any_char :: lit close) o g (x ++ str close ++ post)
  = Some (Match g post).
Proof.
  intros Hx. cbn [mt]. rewrite rep_lazy_skip.
  - apply rep_lazy_here. unfold lit. rewrite mt_literal_end, starts_with_self.
    by rewrite drop_app_length.
  - apply forallb_any.
  - intros i Hi. unfold lit.
    by rewrite mt_literal_end, closes_at_end_spec.
Qed.

Lemma server_block_exact c x post :
  c ≠ 64%N → closes_at_end (str "%>") x = true →
  match_at ASP_SERVER_BLOCK_RE (str "<%" ++ c :: x ++ str "%>" ++ post)
  = Some (Match None post).
Proof.
  intros Hc Hx. unfold match_at, ASP_SERVER_BLOCK_RE, lit at 1.
  rewrite mt_literal, starts_with_self, drop_app_length.
  cbn [app]. rewrite mt_one by by apply is_not_true.
  by apply lazy_until_close.
Qed.

Lemma server_comment_exact x post :
  closes_at_end (str "--%>") x = true →
  match_at ASP_COMMENT_RE (str "<%--" ++ x ++ str "--%>" ++ post)
  = Some (Match None post).
Proof.
  intros Hx. unfold match_at, ASP_COMMENT_RE, lit at 1.
  rewrite mt_literal, starts_with_self, drop_app_length.
  by apply lazy_until_close.
Qed.

Lemma free_closes_at_end a close x :
  free_of a x = true → head close = Some a → closes_at_end close x = true.
Proof.
  intros Hx Ha. unfold closes_at_end. apply forallb_forall.
  intros j [_ Hj]%in_seq. simpl in Hj. apply negb_true_iff.
  rewrite drop_app_le by lia.
  destruct (drop j x) as [|c y] eqn:E.
  { apply (f_equal length) in E. rewrite length_drop in E. simpl in E. lia. }
  assert (c ≠ a) as Hc.
  { apply is_not_true. pose proof (free_of_drop a j x Hx) as Hd.
    rewrite E in Hd. simpl in Hd. by apply andb_prop in Hd as [? _]. }
  destruct close as [|a' close]; [done|]. injection Ha as ->.
  simpl. by apply N.eqb_neq in Hc as ->.
Qed.

(** A banner needs a second opening delimiter behind its first. *)
Lemma banner_needs_second s m :
  match_at THREE_LINE_HEADER_RE (60%N :: s) = Some m → free_of 60 s = false.
Proof.
  intros H%mt_sound. unfold THREE_LINE_HEADER_RE in H.
  apply sep_sound in H as (S & s1 & Es & (w & d & w' & -> & _) & H).
  cbn [app sem] in H. destruct H as (w2 & s2 & -> & _ & _ & H).
  apply (sem_ilit "<%") in H as (T & s3 & -> & HT & _).
  destruct (ilike_cons_inv 60 (str "%") T HT) as (t1 & T1 & -> & H1 & _).
  assert (t1 = 60%N) as -> by (revert H1; chars).
  change (str "<%" ++ ?x) with (60%N :: 37%N :: x) in Es.
  injection Es as ->. apply not_true_iff_false. intros Hf.
  repeat (rewrite <- app_assoc in Hf; cbn [app] in Hf).
  change (37%N :: ?x) with ([37%N] ++ x) in Hf.
  rewrite !free_of_app in Hf. destruct Hf as (_ & _ & _ & _ & _ & _ & Hf).
  discriminate Hf.
Qed.

Lemma opens_separator_app y v :
  opens_separator (y ++ 37%N :: v) = opens_separator y.
Proof.
  unfold opens_separator. f_equal. f_equal.
  assert (drop_while isspace (y ++ 37%N :: v)
          = drop_while isspace y ++ 37%N :: v) as ->.
  { rewrite <- (take_drop_while isspace y) at 1. rewrite <- app_assoc.
    rewrite drop_while_app by apply forallb_take_while.
    destruct (drop_while isspace y) as [|e d] eqn:E; [done|].
    assert (isspace e = false) as He.
    { revert E. clear. induction y as [|c y IH]; [done|]. cbn [drop_while].
      destruct (isspace c) eqn:Hc; [by apply IH|]. by intros [= <- _]. }
    cbn [app drop_while]. by rewrite He. }
  set (d := drop_while isspace y).
  rewrite <- (take_drop_while (N.eqb 45) d) at 1. rewrite <- app_assoc.
  rewrite take_while_app by apply forallb_take_while.
  destruct (drop_while (N.eqb 45) d) as [|e d'] eqn:E.
  { cbn [app take_while]. change (N.eqb 45 37) with false.
    by rewrite app_nil_r. }
  assert (N.eqb 45 e = false) as He.
  { clear -E. generalize dependent d. intros d. clear.
    induction d as [|c d IH]; [done|]. cbn [drop_while].
    destruct (N.eqb 45 c) eqn:Hc; [by apply IH|]. by intros [= <- _]. }
  cbn [app take_while]. rewrite He. by rewrite app_nil_r.
Qed.

(** No banner begins at an opening delimiter whose text does not begin
    like a separator line. *)
Lemma no_separator_no_banner y :
  opens_separator y = false →
  match_at THREE_LINE_HEADER_RE (str "<%" ++ y) = None.
Proof.
  intros Hy. unfold match_at, THREE_LINE_HEADER_RE, separator.
  rewrite <- !app_assoc. rewrite (mt_ilit "<%" (str "<%")) by reflexivity.
  cbn [app]. unfold ws_star at 1. rewrite mt_greedy_reject.
  2:{ intros c s' Hc. cbn [can_start].
      assert (N.eqb 45 c = false) as -> by (revert Hc; chars). reflexivity. }
  cbn [bool_decide decide_rel]. rewrite bool_decide_eq_true_2 by lia.
  rewrite mt_greedy_reject.
  2:{ intros c s' Hc. apply N.eqb_eq in Hc as <-. reflexivity. }
  unfold opens_separator in Hy. apply Nat.leb_gt in Hy.
  by rewrite bool_decide_eq_false_2 by lia.
Qed.

Lemma starts_no_match_ilit l r s :
  istarts (str l) s = false → match_at (ilit l ++ r) s = None.
Proof.
  intros H. apply match_can_start. apply not_true_iff_false. intros E.
  apply can_start_ilike in E. congruence.
Qed.

Lemma starts_no_match_lit l r s :
  starts_with (str l) s = false → match_at (lit l ++ r) s = None.
Proof.
  intros H. apply match_can_start. apply not_true_iff_false. intros E.
  apply can_start_literal in E. congruence.
Qed.

(** What begins with an opening server delimiter is no page directive
    when its next character is not the at sign, no content tag, and no
    server comment when its next character is not a dash. *)
Lemma delimiter_no_match r c rest :
  r ∈ [PAGE_DIRECTIVE_RE; ASP_CONTENT_START_RE; ASP_CONTENT_END_RE;
       ASP_COMMENT_RE] →
  c ≠ 64%N → (r = ASP_COMMENT_RE → c ≠ 45%N) →
  match_at r (str "<%" ++ c :: rest) = None.
Proof.
  rewrite !elem_of_cons, elem_of_nil.
  intros [->|[->|[->|[->|[]]]]] Hc Hd.
  - apply starts_no_match_ilit.
    change (istarts (str "<%@") (str "<%" ++ c :: rest))
      with (ieq 60 60 && (ieq 37 37 && (ieq 64 c && true))).
    assert (ieq 64 c = false) as -> by (revert Hc; chars). reflexivity.
  - apply starts_no_match_ilit. reflexivity.
  - unfold ASP_CONTENT_END_RE. rewrite <- (app_nil_r (ilit _)).
    apply starts_no_match_ilit. reflexivity.
  - apply starts_no_match_lit.
    change (starts_with (str "<%--") (str "<%" ++ c :: rest))
      with (N.eqb 60 60 && (N.eqb 37 37 && (N.eqb c 45 && starts_with [45%N] rest))).
    specialize (Hd eq_refl). apply N.eqb_neq in Hd as ->. reflexivity.
Qed.

(** * Stretches every step passes over *)

Lemma free_passed_over u : free_of 60 u = true → passed_over u.
Proof.
  intros H r v Hr. apply unmatched_free; [by apply rewrite_patterns_open|done].
Qed.

Lemma passed_over_app u1 u2 :
  passed_over u1 → passed_over u2 → passed_over (u1 ++ u2).
Proof. intros H1 H2 r v Hr. apply unmatched_app; [by apply H1|by apply H2]. Qed.

(** A tag whose name begins with neither a percent sign, a slash nor the
    letter a. *)
Lemma tag_passed_over c2 u :
  c2 ≠ 37%N → c2 ≠ 47%N → ieq 97 c2 = false → free_of 60 (c2 :: u) = true →
  passed_over (60%N :: c2 :: u).
Proof.
  intros Hp Hs Ha Hf r v Hr.
  apply unmatched_tag; [by apply rewrite_patterns_open| |done].
  revert Hr. unfold REWRITE_PATTERNS. rewrite !elem_of_cons, elem_of_nil.
  intros [->|[->|[->|[->|[->|[->|[]]]]]]];
    first [by apply second_bad_start | by apply second_bad_end
          | apply second_bad_not_pct; [in_list|done]].
Qed.

Lemma rewrite_text_passed pre post :
  passed_over pre → rewrite_text (pre ++ post) = pre ++ rewrite_text post.
Proof. intros H. by apply rewrite_text_pass. Qed.

Lemma delimited_unmatched r c z v :
  r ∈ [PAGE_DIRECTIVE_RE; THREE_LINE_HEADER_RE; ASP_CONTENT_START_RE;
       ASP_CONTENT_END_RE; ASP_COMMENT_RE] →
  c ≠ 64%N → (r = ASP_COMMENT_RE → c ≠ 45%N) →
  opens_separator (c :: z ++ v) = false → free_of 60 (c :: z) = true →
  unmatched r (str "<%" ++ c :: z) v.
Proof.
  intros Hr Hc Hd Hsep Hf.
  change (str "<%" ++ c :: z) with (60%N :: ([37%N] ++ c :: z)).
  apply unmatched_cons.
  - change (60%N :: ([37%N] ++ c :: z) ++ v) with (str "<%" ++ c :: z ++ v).
    revert Hr Hd. rewrite !elem_of_cons, elem_of_nil.
    intros [->|[->|[->|[->|[->|[]]]]]] Hd;
      first [by apply no_separator_no_banner
            | apply delimiter_no_match; [in_list|done|done] ].
  - apply unmatched_free.
    + apply rewrite_patterns_open. in_list.
    + by apply free_of_app.
Qed.

Lemma ilike_app_inv l1 l2 : ∀ T,
  ilike (l1 ++ l2) T = true →
  ∃ T1 T2, T = T1 ++ T2 ∧ ilike l1 T1 = true ∧ ilike l2 T2 = true.
Proof.
  induction l1 as [|a l1 IH]; intros T H.
  - by exists [], T.
  - destruct T as [|c T]; [done|]. cbn [app ilike] in H.
    apply andb_prop in H as [Hc H].
    destruct (IH T H) as (T1 & T2 & -> & H1 & H2).
    exists (c :: T1), T2. split_and!; [done| |done].
    cbn [ilike]. by rewrite Hc.
Qed.

(** The closing content tag is matched by its exact name only. *)
Lemma end_needs_name name v :
  free_of 62 name = true → ilike (str "asp:Content") name = false →
  match_at ASP_CONTENT_END_RE (str "</" ++ name ++ str ">" ++ v) = None.
Proof.
  intros Hf Hn.
  destruct (match_at ASP_CONTENT_END_RE _) as [m|] eqn:E; [exfalso|done].
  apply mt_sound in E. unfold ASP_CONTENT_END_RE in E.
  apply sem_ilit_end in E as (T & s' & Es & HT & _).
  change (str "</asp:Content>")
    with (str "</" ++ str "asp:Content" ++ str ">") in HT.
  apply ilike_app_inv in HT as (A & T1 & -> & HA & HT).
  apply ilike_app_inv in HT as (N' & G & -> & HN & HG).
  apply ilike_uncased in HA; [|reflexivity]. subst A.
  apply ilike_uncased in HG; [|reflexivity]. subst G.
  repeat (rewrite <- app_assoc in Es; cbn [app] in Es).
  change (str "</" ++ ?a) with (60%N :: 47%N :: a) in Es.
  injection Es as Es. change (str ">" ++ ?a) with (62%N :: a) in Es.
  destruct (span_unique (is_not 62) name N' 62%N 62%N v s') as (-> & _);
    [done|by apply (ilike_free_of_b 62 (str "asp:Content"))|done|done|done|].
  congruence.
Qed.

(** A closing tag of another name. *)
Lemma closing_tag_passed_over name :
  free_of 60 name = true → free_of 62 name = true →
  ilike (str "asp:Content") name = false →
  passed_over (str "</" ++ name ++ str ">").
Proof.
  intros Hl Hg Hn r v Hr.
  change (str "</" ++ name ++ str ">") with (60%N :: ([47%N] ++ name ++ str ">")).
  assert (free_of 60 ([47%N] ++ name ++ str ">") = true) as Hfree.
  { rewrite !free_of_app. by split_and!. }
  apply unmatched_cons; [|apply unmatched_free;
    [by apply rewrite_patterns_open|done]].
  change (60%N :: ([47%N] ++ name ++ str ">") ++ v)
    with (str "</" ++ (name ++ str ">") ++ v).
  rewrite <- app_assoc.
  revert Hr. unfold REWRITE_PATTERNS. rewrite !elem_of_cons, elem_of_nil.
  intros [->|[->|[->|[->|[->|[->|[]]]]]]];
    first [by apply end_needs_name
          | apply match_can_start; vm_compute; reflexivity].
Qed.

Lemma opens_separator_block c x X :
  opens_separator (c :: (x ++ str "%>") ++ X) = opens_separator (c :: x).
Proof.
  rewrite <- (opens_separator_app (c :: x) (62%N :: X)).
  f_equal. cbn [app]. f_equal. by rewrite <- app_assoc.
Qed.

Lemma server_block_segment c x pre post :
  c ≠ 64%N → closes_at_end (str "%>") x = true → passed_over pre →
  c ≠ 45%N → opens_separator (c :: x) = false → free_of 60 (c :: x) = true →
  rewrite_text (pre ++ (str "<%" ++ c :: x ++ str "%>") ++ post)
  = pre ++ rewrite_text post.
Proof.
  intros Hc Hx Hpre Hd Hsep Hf.
  assert (∀ r f X,
    r ∈ [PAGE_DIRECTIVE_RE; THREE_LINE_HEADER_RE; ASP_CONTENT_START_RE;
         ASP_CONTENT_END_RE; ASP_COMMENT_RE] →
    sub r f (pre ++ (str "<%" ++ c :: x ++ str "%>") ++ X)
    = pre ++ (str "<%" ++ c :: x ++ str "%>") ++ sub r f X) as Hpass.
  { intros r f X Hr. rewrite sub_pass by (apply Hpre; in_list).
    f_equal. apply sub_pass. apply delimited_unmatched; try done.
    - by rewrite opens_separator_block.
    - change (c :: x ++ str "%>") with ((c :: x) ++ str "%>").
      by apply free_of_app. }
  unfold rewrite_text, remove_server_code, remove_content_tags,
    normalize_banners, remove_page_directives.
  rewrite !Hpass by in_list.
  rewrite sub_pass by (apply Hpre; in_list). f_equal.
  lazymatch goal with
  | |- sub _ _ (?B ++ ?X) = _ =>
      rewrite (sub_hit ASP_SERVER_BLOCK_RE erase B X (Match None X));
        [done|done| |done]
  end.
  rewrite <- app_assoc. cbn [app]. rewrite <- app_assoc.
  by apply server_block_exact.
Qed.

(** X7: a server code block is deleted with its code.  The block is the
    opening delimiter, one character that is not the at sign, and the text
    up to the first closing delimiter behind that character.  The step of
    the server blocks takes it out wherever its scan reaches it, and so
    does the whole pipeline when the block is no server comment, does not
    begin like a separator line and holds no opening angle bracket.  A
    block with nothing between its delimiters does not end at its own
    closing delimiter: the scan takes the percent sign as the first
    character and deletes up to the next closing delimiter. *)
Theorem server_block_is_deleted c x :
  c ≠ 64%N → closes_at_end (str "%>") x = true →
  (∀ pre post,
     unmatched ASP_SERVER_BLOCK_RE pre
       ((str "<%" ++ c :: x ++ str "%>") ++ post) →
     sub ASP_SERVER_BLOCK_RE erase
       (pre ++ (str "<%" ++ c :: x ++ str "%>") ++ post)
     = pre ++ sub ASP_SERVER_BLOCK_RE erase post)
  ∧ (∀ pre post,
       passed_over pre → c ≠ 45%N → opens_separator (c :: x) = false →
       free_of 60 (c :: x) = true →
       rewrite_text (pre ++ (str "<%" ++ c :: x ++ str "%>") ++ post)
       = pre ++ rewrite_text post
       ∧ body_of (pre ++ (str "<%" ++ c :: x ++ str "%>") ++ post)
         = strip (pre ++ rewrite_text post))
  ∧ (∀ y post,
       closes_at_end (str "%>") (62%N :: y) = true →
       sub ASP_SERVER_BLOCK_RE erase (str "<%%>" ++ y ++ str "%>" ++ post)
       = sub ASP_SERVER_BLOCK_RE erase post).
Proof.
  intros Hc Hx. split_and!.
  - intros pre post Hpre. rewrite sub_pass by done. f_equal.
    rewrite (sub_hit ASP_SERVER_BLOCK_RE erase _ _ (Match None post));
      [done|done| |done].
    rewrite <- app_assoc. cbn [app]. rewrite <- app_assoc.
    by apply server_block_exact.
  - intros pre post Hpre Hd Hsep Hf.
    pose proof (server_block_segment c x pre post Hc Hx Hpre Hd Hsep Hf) as E.
    split; [done|]. unfold body_of. by rewrite E.
  - intros y post Hy.
    assert (str "<%%>" ++ y ++ str "%>" ++ post
            = (str "<%" ++ 37%N :: (62%N :: y) ++ str "%>") ++ post) as ->.
    { change (str "<%%>") with [60; 37; 37; 62]%N.
      change (str "<%") with [60; 37]%N. cbn [app]. by rewrite <- app_assoc. }
    rewrite (sub_hit ASP_SERVER_BLOCK_RE erase _ post (Match None post));
      [done|done| |done].
    rewrite <- app_assoc. cbn [app]. rewrite <- app_assoc.
    apply (server_block_exact 37%N (62%N :: y)); done.
Qed.

Lemma server_block_is_deleted_witness :
  rewrite_text
    (str "<p>" ++ (str "<%" ++ 61%N :: str " Model.Name " ++ str "%>")
     ++ str "</p><% if (a) { %>x")
  = str "<p>" ++ rewrite_text (str "</p><% if (a) { %>x").
Proof.
  refine (proj1 (proj1 (proj2 (server_block_is_deleted 61%N
    (str " Model.Name ") _ _)) (str "<p>") (str "</p><% if (a) { %>x")
    _ _ _ _)).
  - discriminate.
  - reflexivity.
  - apply tag_passed_over; [discriminate|discriminate|reflexivity|reflexivity].
  - discriminate.
  - reflexivity.
  - reflexivity.
Defined.

(** * Server comments *)

Lemma server_comment_segment x pre post :
  closes_at_end (str "--%>") x = true → passed_over pre →
  opens_separator (str "--" ++ x ++ str "--") = false →
  free_of 60 x = true →
  rewrite_text (pre ++ (str "<%--" ++ x ++ str "--%>") ++ post)
  = pre ++ rewrite_text post.
Proof.
  intros Hx Hpre Hsep Hf.
  assert (∀ r f X,
    r ∈ [PAGE_DIRECTIVE_RE; THREE_LINE_HEADER_RE; ASP_CONTENT_START_RE;
         ASP_CONTENT_END_RE] →
    sub r f (pre ++ (str "<%--" ++ x ++ str "--%>") ++ X)
    = pre ++ (str "<%--" ++ x ++ str "--%>") ++ sub r f X) as Hpass.
  { intros r f X Hr. rewrite sub_pass by (apply Hpre; in_list).
    f_equal. apply sub_pass.
    change (str "<%--" ++ x ++ str "--%>")
      with (str "<%" ++ 45%N :: (45%N :: x ++ str "--%>")).
    apply delimited_unmatched.
    - in_list.
    - discriminate.
    - intros ->. revert Hr. rewrite !elem_of_cons, elem_of_nil.
      intros [E|[E|[E|[E|[]]]]]; discriminate E.
    - etrans; [|exact Hsep].
      rewrite <- (opens_separator_app (str "--" ++ x ++ str "--") (62%N :: X)).
      f_equal. change (str "--%>") with [45; 45; 37; 62]%N.
      change (str "--") with [45; 45]%N.
      repeat (rewrite <- app_assoc; cbn [app]). done.
    - change (45%N :: 45%N :: x ++ str "--%>")
        with (str "--" ++ x ++ str "--%>").
      rewrite !free_of_app. by split_and!. }
  unfold rewrite_text, remove_server_code, remove_content_tags,
    normalize_banners, remove_page_directives.
  rewrite !Hpass by in_list.
  rewrite (sub_pass ASP_COMMENT_RE) by (apply Hpre; in_list).
  lazymatch goal with
  | |- context [sub ASP_COMMENT_RE erase (?B ++ ?X)] =>
      rewrite (sub_hit ASP_COMMENT_RE erase B X (Match None X));
        [|done| |done]
  end.
  - cbn [erase app]. by rewrite sub_pass by (apply Hpre; in_list).
  - rewrite <- !app_assoc. by apply server_comment_exact.
Qed.

(** X8: a server comment is deleted as a whole.  The comment runs from
    its opening delimiter to the first closing delimiter of a comment
    behind it, over any closing delimiter of a server block in between,
    because the step of the comments runs before the step of the blocks.
    The step takes it out wherever its scan reaches it, and so does the
    whole pipeline when the comment does not begin like a separator line
    and holds no opening angle bracket. *)
Theorem server_comment_is_deleted x :
  closes_at_end (str "--%>") x = true →
  (∀ pre post,
     unmatched ASP_COMMENT_RE pre ((str "<%--" ++ x ++ str "--%>") ++ post) →
     sub ASP_COMMENT_RE erase (pre ++ (str "<%--" ++ x ++ str "--%>") ++ post)
     = pre ++ sub ASP_COMMENT_RE erase post)
  ∧ (∀ pre post,
       passed_over pre →
       opens_separator (str "--" ++ x ++ str "--") = false →
       free_of 60 x = true →
       rewrite_text (pre ++ (str "<%--" ++ x ++ str "--%>") ++ post)
       = pre ++ rewrite_text post
       ∧ body_of (pre ++ (str "<%--" ++ x ++ str "--%>") ++ post)
         = strip (pre ++ rewrite_text post)).
Proof.
  intros Hx. split.
  - intros pre post Hpre. rewrite sub_pass by done. f_equal.
    rewrite (sub_hit ASP_COMMENT_RE erase _ _ (Match None post));
      [done|done| |done].
    rewrite <- !app_assoc. by apply server_comment_exact.
  - intros pre post Hpre Hsep Hf.
    pose proof (server_comment_segment x pre post Hx Hpre Hsep Hf) as E.
    split; [done|]. unfold body_of. by rewrite E.
Qed.

Lemma server_comment_is_deleted_witness :
  body_of (str "<p>a</p>"
           ++ (str "<%--" ++ str " old: %> and more " ++ str "--%>")
           ++ str "<p>b</p>")
  = strip (str "<p>a</p>" ++ rewrite_text (str "<p>b</p>")).
Proof.
  refine (proj2 (proj2 (server_comment_is_deleted (str " old: %> and more ") _)
    (str "<p>a</p>") (str "<p>b</p>") _ _ _)).
  - reflexivity.
  - apply (passed_over_app (str "<p>a") (str "</p>")).
    + apply tag_passed_over; [discriminate|discriminate|reflexivity|reflexivity].
    + exact (closing_tag_passed_over (str "p") eq_refl eq_refl eq_refl).
  - reflexivity.
  - reflexivity.
Defined.

(** * Content tags by their names *)

Lemma passed_over_nil : passed_over [].
Proof. intros r v _. apply unmatched_nil. Qed.

Lemma opening_tag_segment T attrs O pre post :
  content_open T attrs O → free_of 60 attrs = true → passed_over pre →
  rewrite_text (pre ++ O ++ post) = pre ++ rewrite_text post.
Proof.
  intros HO Ha Hpre.
  assert (O ≠ []) as HOne.
  { destruct HO as (-> & HT & _). intros E. destruct T; [|discriminate E].
    vm_compute in HT. discriminate HT. }
  assert (∀ r f X, r ∈ [PAGE_DIRECTIVE_RE; THREE_LINE_HEADER_RE] →
    sub r f (pre ++ O ++ X) = pre ++ O ++ sub r f X) as Hpass.
  { intros r f X Hr. rewrite sub_pass by (apply Hpre; in_list).
    f_equal. apply sub_pass.
    apply (content_open_unmatched r T attrs); [done|done|in_list]. }
  unfold rewrite_text, remove_server_code, remove_content_tags,
    normalize_banners, remove_page_directives.
  rewrite !Hpass by in_list.
  rewrite (sub_pass ASP_CONTENT_START_RE) by (apply Hpre; in_list).
  lazymatch goal with
  | |- context [sub ASP_CONTENT_START_RE erase (O ++ ?X)] =>
      rewrite (sub_hit ASP_CONTENT_START_RE erase O X (Match None X));
        [|done|by apply (start_exact T attrs)|done]
  end.
  cbn [erase app]. by rewrite !sub_pass by (apply Hpre; in_list).
Qed.

Lemma closing_tag_segment C pre post :
  content_close C → passed_over pre →
  rewrite_text (pre ++ C ++ post) = pre ++ rewrite_text post.
Proof.
  intros HC Hpre.
  assert (C ≠ []) as HCne.
  { intros ->. vm_compute in HC. discriminate HC. }
  assert (∀ r f X,
    r ∈ [PAGE_DIRECTIVE_RE; THREE_LINE_HEADER_RE; ASP_CONTENT_START_RE] →
    sub r f (pre ++ C ++ X) = pre ++ C ++ sub r f X) as Hpass.
  { intros r f X Hr. rewrite sub_pass by (apply Hpre; in_list).
    f_equal. apply sub_pass. apply content_close_unmatched; [done|in_list]. }
  unfold rewrite_text, remove_server_code, remove_content_tags,
    normalize_banners, remove_page_directives.
  rewrite !Hpass by in_list.
  rewrite (sub_pass ASP_CONTENT_END_RE) by (apply Hpre; in_list).
  lazymatch goal with
  | |- context [sub ASP_CONTENT_END_RE erase (C ++ ?X)] =>
      rewrite (sub_hit ASP_CONTENT_END_RE erase C X (Match None X));
        [|done|by apply end_exact|done]
  end.
  cbn [erase app]. by rewrite !sub_pass by (apply Hpre; in_list).
Qed.

(** X9: content tags by their names.  An opening tag is removed when its
    name begins with the name of the content tag, in any case: the tag of
    a content place holder goes too.  A closing tag is removed only when
    it is the closing content tag itself; the closing tag of any other
    name stays in the body, also the one of a content place holder whose
    opening tag was removed.  Both hold wherever the tag stands behind a
    text that no step finds a match in. *)
Theorem content_tags_by_name T attrs O C name :
  content_open T attrs O → free_of 60 attrs = true → content_close C →
  free_of 60 name = true → free_of 62 name = true →
  ilike (str "asp:Content") name = false →
  (∀ pre post, passed_over pre →
     rewrite_text (pre ++ O ++ post) = pre ++ rewrite_text post)
  ∧ (∀ pre post, passed_over pre →
       rewrite_text (pre ++ C ++ post) = pre ++ rewrite_text post)
  ∧ (∀ pre post, passed_over pre →
       rewrite_text (pre ++ (str "</" ++ name ++ str ">") ++ post)
       = pre ++ (str "</" ++ name ++ str ">") ++ rewrite_text post)
  ∧ (∀ inner, free_of 60 inner = true →
       body_of (O ++ inner ++ str "</" ++ name ++ str ">")
       = strip (inner ++ str "</" ++ name ++ str ">")).
Proof.
  intros HO Ha HC Hl Hg Hn.
  pose proof (closing_tag_passed_over name Hl Hg Hn) as HK.
  split_and!.
  - intros pre post Hpre. by apply (opening_tag_segment T attrs).
  - intros pre post Hpre. by apply closing_tag_segment.
  - intros pre post Hpre. rewrite app_assoc.
    rewrite rewrite_text_passed by by apply passed_over_app.
    by rewrite <- app_assoc.
  - intros inner Hin. unfold body_of. f_equal.
    pose proof (opening_tag_segment T attrs O []
                  (inner ++ str "</" ++ name ++ str ">") HO Ha passed_over_nil)
      as E.
    cbn [app] in E. rewrite E.
    rewrite <- (app_nil_r (inner ++ str "</" ++ name ++ str ">")) at 1.
    rewrite rewrite_text_passed.
    + by rewrite app_nil_r.
    + apply passed_over_app; [by apply free_passed_over|done].
Qed.

Lemma content_tags_by_name_witness :
  body_of (str ("<asp:ContentPlaceHolder ID=" ++ QT ++ "Main" ++ QT ++ ">")
           ++ str "Hello" ++ str "</" ++ str "asp:ContentPlaceHolder"
           ++ str ">")
  = strip (str "Hello" ++ str "</" ++ str "asp:ContentPlaceHolder" ++ str ">").
Proof.
  refine (proj2 (proj2 (proj2 (content_tags_by_name
    (str "<asp:Content") (str ("PlaceHolder ID=" ++ QT ++ "Main" ++ QT))
    (str ("<asp:ContentPlaceHolder ID=" ++ QT ++ "Main" ++ QT ++ ">"))
    (str "</ASP:content>") (str "asp:ContentPlaceHolder")
    _ _ _ _ _ _))) (str "Hello") _).
  - split_and!; reflexivity.
  - reflexivity.
  - reflexivity.
  - reflexivity.
  - reflexivity.
  - reflexivity.
  - reflexivity.
Defined.

(** * A banner among other text *)

(** No page directive begins at an opening delimiter that is followed by
    white space and a dash. *)
Lemma opened_no_page w rest v :
  blank w = true → free_of 60 (w ++ 45%N :: rest) = true →
  unmatched PAGE_DIRECTIVE_RE (str "<%" ++ w ++ 45%N :: rest) v.
Proof.
  intros Hw Hf.
  change (str "<%" ++ w ++ 45%N :: rest)
    with (60%N :: ([37%N] ++ w ++ 45%N :: rest)).
  apply unmatched_cons.
  - change (60%N :: ([37%N] ++ w ++ 45%N :: rest) ++ v)
      with (str "<%" ++ (w ++ 45%N :: rest) ++ v).
    destruct w as [|c w].
    + apply delimiter_no_match; [in_list|discriminate|discriminate].
    + cbn [app]. apply delimiter_no_match; [in_list| |discriminate].
      cbn [blank forallb] in Hw. apply andb_prop in Hw as [Hc _].
      revert Hc. chars.
  - apply unmatched_free; [apply rewrite_patterns_open; in_list|].
    by apply free_of_app.
Qed.

Lemma dashes_free a d :
  a ≠ 45%N → forallb (N.eqb 45) d = true → free_of a d = true.
Proof.
  intros Ha. induction d as [|c d IH]; [done|]. cbn [forallb free_of].
  intros [Hc Hd]%andb_prop. apply N.eqb_eq in Hc as <-.
  fold (free_of a d). rewrite IH by done.
  rewrite andb_true_r. apply is_not_true. congruence.
Qed.

Lemma sep_line_no_page S v :
  sep_line S → unmatched PAGE_DIRECTIVE_RE S v.
Proof.
  intros (w & d & w' & -> & Hw & Hd & Hdash & Hw').
  destruct d as [|c d]; [simpl in Hd; lia|].
  assert (c = 45%N) as ->.
  { cbn [forallb] in Hdash. apply andb_prop in Hdash as [Hc _].
    by apply N.eqb_eq in Hc. }
  rewrite <- (app_comm_cons d). apply opened_no_page; [done|].
  change (45%N :: d ++ w' ++ str "%>") with ((45%N :: d) ++ w' ++ str "%>").
  rewrite !free_of_app. split_and!.
  - by apply blank_free_of.
  - by apply dashes_free.
  - by apply blank_free_of.
  - done.
Qed.

Lemma banner_text_no_page S1 wa wb x we wf S2 v :
  banner_parts S1 wa wb we wf S2 → free_of 60 x = true →
  unmatched PAGE_DIRECTIVE_RE (banner_text S1 wa wb x we wf S2) v.
Proof.
  intros (HS1 & HS2 & Hwa & Hwb & Hwe & Hwf) Hx.
  assert (opens_with_lt PAGE_DIRECTIVE_RE) as Hlt
    by (apply rewrite_patterns_open; in_list).
  unfold banner_text, banner_close.
  apply unmatched_app; [by apply sep_line_no_page|].
  apply unmatched_app; [apply unmatched_free; [done|by apply blank_free_of]|].
  assert (str "<%" ++ wb ++ str "--" ++ x ++ str "--" ++ we ++ str "%>" ++ wf ++ S2
          = (str "<%" ++ wb ++ 45%N :: (45%N :: x ++ str "--" ++ we ++ str "%>"))
            ++ wf ++ S2) as ->.
  { change (str "--" ++ ?a) with (45%N :: 45%N :: a).
    change (str "<%" ++ ?a) with (60%N :: 37%N :: a). cbn [app].
    repeat (rewrite <- app_assoc; cbn [app]). done. }
  apply unmatched_app.
  { apply opened_no_page; [done|].
    change (45%N :: 45%N :: x ++ str "--" ++ we ++ str "%>")
      with (str "--" ++ x ++ str "--" ++ we ++ str "%>").
    rewrite !free_of_app. split_and!; try done; by apply blank_free_of. }
  apply unmatched_app; [apply unmatched_free; [done|by apply blank_free_of]|].
  by apply sep_line_no_page.
Qed.

(** X10: a banner among other text.  A three-part banner whose text holds
    neither a percent sign nor an opening angle bracket, standing behind
    a text that no step finds a match in, comes out of the whole pipeline
    as its one comment: the removal of the page directives passes over
    it, the banner step converts it, the later steps pass over the
    comment, and the rewriting goes on behind it. *)
Theorem banner_in_context S1 wa wb x we wf S2 pre post :
  banner_parts S1 wa wb we wf S2 →
  free_of 60 x = true → free_of 37 x = true → passed_over pre →
  rewrite_text (pre ++ banner_text S1 wa wb x we wf S2 ++ post)
  = pre ++ banner_comment x ++ rewrite_text post.
Proof.
  intros Hparts Hx Hpct Hpre.
  assert (banner_text S1 wa wb x we wf S2 ≠ []) as Hne.
  { destruct Hparts as ((? & ? & ? & -> & _) & _). done. }
  unfold rewrite_text, remove_server_code, remove_content_tags,
    normalize_banners, remove_page_directives.
  rewrite (sub_pass PAGE_DIRECTIVE_RE) by (apply Hpre; in_list).
  rewrite (sub_pass PAGE_DIRECTIVE_RE _ (banner_text _ _ _ _ _ _ _))
    by by apply banner_text_no_page.
  rewrite (sub_pass THREE_LINE_HEADER_RE) by (apply Hpre; in_list).
  lazymatch goal with
  | |- context [sub THREE_LINE_HEADER_RE header_replacer (?B ++ ?X)] =>
      rewrite (sub_hit THREE_LINE_HEADER_RE header_replacer B X
                 (Match (Some (strip x)) X));
        [|done| |done]
  end.
  2:{ apply banner_exact; [done|].
      apply plain_text_closes_first; [done|]. by destruct Hparts as (_ & _ & _ & _ & ? & _). }
  unfold header_replacer at 1.
  change (default [] (m_g1 (Match (Some (strip x)) ?X))) with (strip x).
  rewrite strip_strip. fold (banner_comment x).
  assert (∀ r f X,
    r ∈ [ASP_CONTENT_START_RE; ASP_CONTENT_END_RE; ASP_COMMENT_RE;
         ASP_SERVER_BLOCK_RE] →
    sub r f (pre ++ banner_comment x ++ X)
    = pre ++ banner_comment x ++ sub r f X) as Hpass.
  { intros r f X Hr. rewrite sub_pass by (apply Hpre; in_list).
    f_equal. apply sub_pass. apply banner_comment_unmatched; [in_list|done]. }
  by rewrite !Hpass by in_list.
Qed.

Lemma banner_in_context_witness :
  rewrite_text
    (str "<h1>T" ++
     banner_text (str "<%----%>") (str NL) [] (str " Totals ")
       [] (str NL) (str "<% --- %>")
     ++ str "<%= x %>")
  = str "<h1>T" ++ banner_comment (str " Totals ")
    ++ rewrite_text (str "<%= x %>").
Proof.
  refine (banner_in_context _ _ _ _ _ _ _ _ _ _ _ _ _).
  - split_and!; try reflexivity.
    + exists [], (str "----"), []. split_and!; first [reflexivity|simpl; lia].
    + exists [32%N], (str "---"), [32%N].
      split_and!; first [reflexivity|simpl; lia].
  - reflexivity.
  - reflexivity.
  - apply tag_passed_over; [discriminate|discriminate|reflexivity|reflexivity].
Defined.

(** * A content page *)

Lemma lstrip_app_blank a w :
  blank w = true →
  lstrip (a ++ w) = if blank a then [] else lstrip a ++ w.
Proof.
  intros Hw. induction a as [|c a IH]; [by apply lstrip_blank|].
  cbn [app lstrip blank forallb]. destruct (isspace c); [apply IH|done].
Qed.

Lemma rstrip_app_blank y w : blank w = true → rstrip (y ++ w) = rstrip y.
Proof.
  intros Hw. unfold rstrip. rewrite rev_app_distr. f_equal.
  rewrite !lstrip_drop_while. apply drop_while_app.
  fold (blank (rev w)). by rewrite blank_rev.
Qed.

Lemma strip_blank_around w1 a w2 :
  blank w1 = true → blank w2 = true → strip (w1 ++ a ++ w2) = strip a.
Proof.
  intros H1 H2. unfold strip.
  assert (lstrip (w1 ++ a ++ w2) = lstrip (a ++ w2)) as ->.
  { rewrite !lstrip_drop_while. by apply drop_while_app. }
  rewrite lstrip_app_blank by done. destruct (blank a) eqn:Ha.
  - by rewrite (lstrip_blank a).
  - by apply rstrip_app_blank.
Qed.

(** X11: a content page.  A text made of a page directive, an opening
    content tag, markup that no step finds a match in, and the closing
    content tag, with white space between the directive and the tag and
    at the end, becomes the page with the title of the directive and that
    markup, trimmed, as its body. *)
Theorem content_page_converts D T attrs O C w1 inner w2 :
  page_block D → content_open T attrs O → free_of 60 attrs = true →
  content_close C → blank w1 = true → blank w2 = true → passed_over inner →
  extract_title (D ++ w1 ++ O ++ inner ++ C ++ w2) = title_in D
  ∧ body_of (D ++ w1 ++ O ++ inner ++ C ++ w2) = strip inner
  ∧ html_of (D ++ w1 ++ O ++ inner ++ C ++ w2)
    = page_with (title_in D) (strip inner).
Proof.
  intros HD HO Ha HC Hw1 Hw2 Hin.
  assert (extract_title (D ++ w1 ++ O ++ inner ++ C ++ w2) = title_in D) as Et.
  { apply (extract_title_first _ [] D (w1 ++ O ++ inner ++ C ++ w2)).
    split_and!; [done|done|]. intros j Hj. simpl in Hj. lia. }
  assert (body_of (D ++ w1 ++ O ++ inner ++ C ++ w2) = strip inner) as Eb.
  { unfold body_of. rewrite <- (strip_blank_around w1 inner w2) by done.
    f_equal. unfold rewrite_text at 1. rewrite remove_page_block by done.
    fold (rewrite_text (w1 ++ O ++ inner ++ C ++ w2)).
    rewrite (opening_tag_segment T attrs) by
      (try done; by apply free_passed_over, blank_free_of).
    f_equal. rewrite rewrite_text_passed by done. f_equal.
    pose proof (closing_tag_segment C [] w2 HC passed_over_nil) as E.
    cbn [app] in E. rewrite E.
    rewrite <- (app_nil_r w2) at 1.
    rewrite rewrite_text_passed by by apply free_passed_over, blank_free_of.
    by rewrite app_nil_r. }
  split_and!; [done|done|]. by rewrite html_of_page_with, Et, Eb.
Qed.

Lemma content_page_converts_witness :
  html_of
    (str ("<%@ Page Language=" ++ QT ++ "C#" ++ QT ++ " Title=" ++ QT ++ "Home"
          ++ QT ++ " %>")
     ++ str NL
     ++ str ("<asp:Content ID=" ++ QT ++ "c1" ++ QT ++ " runat=" ++ QT
             ++ "server" ++ QT ++ ">")
     ++ (str ("<h1>Hello</h1>" ++ NL) ++ str "<p>100 %</p>")
     ++ str "</asp:Content>" ++ str NL)
  = page_with (str "Home") (str ("<h1>Hello</h1>" ++ NL ++ "<p>100 %</p>")).
Proof.
  refine (proj2 (proj2 (content_page_converts _ (str "<asp:Content")
    (str (" ID=" ++ QT ++ "c1" ++ QT ++ " runat=" ++ QT ++ "server" ++ QT))
    _ _ _ _ _ _ _ _ _ _ _ _))).
  - exists [32%N], (str "Page"), 32%N,
      (str ("Language=" ++ QT ++ "C#" ++ QT ++ " Title=" ++ QT ++ "Home" ++ QT ++ " ")).
    split_and!; reflexivity.
  - split_and!; reflexivity.
  - reflexivity.
  - reflexivity.
  - reflexivity.
  - reflexivity.
  - apply passed_over_app.
    + apply (passed_over_app (str "<h1>Hello") (str ("</h1>" ++ NL))).
      * apply tag_passed_over; [discriminate|discriminate|reflexivity|reflexivity].
      * apply (passed_over_app (str "</h1>") (str NL)).
        -- exact (closing_tag_passed_over (str "h1") eq_refl eq_refl eq_refl).
        -- by apply free_passed_over.
    + apply (passed_over_app (str "<p>100 %") (str "</p>")).
      * apply tag_passed_over; [discriminate|discriminate|reflexivity|reflexivity].
      * exact (closing_tag_passed_over (str "p") eq_refl eq_refl eq_refl).
Defined.

(** * Delimiters that are never closed *)

Lemma starts_with_spec old : ∀ s,
  starts_with old s = true ↔ ∃ r, s = old ++ r.
Proof.
  induction old as [|a old IH]; intros s; simpl.
  - split; [by exists s|done].
  - destruct s as [|c s].
    + split; [done|]. intros (r & [=]).
    + rewrite andb_true_iff, N.eqb_eq, IH. split.
      * intros (-> & r & ->). by exists r.
      * intros (r & [= -> ->]). split; [done|by exists r].
Qed.

Lemma closing_occurs A R :
  starts_with (str "%>") (drop (length A) (A ++ str "%>" ++ R)) = true.
Proof. rewrite drop_app_length. apply starts_with_self. Qed.

(** A match of a pattern of the server delimiters holds a closing
    delimiter. *)
Lemma match_needs_closing r s m :
  r ∈ [PAGE_DIRECTIVE_RE; THREE_LINE_HEADER_RE; ASP_COMMENT_RE;
       ASP_SERVER_BLOCK_RE] →
  match_at r s = Some m →
  ∃ A R, s = A ++ str "%>" ++ R.
Proof.
  rewrite !elem_of_cons, elem_of_nil.
  intros [->|[->|[->|[->|[]]]]] Hm.
  - destruct (page_sound _ _ Hm) as (D & (w1 & T & c & b & -> & _) & -> & _).
    exists (str "<%@" ++ w1 ++ T ++ c :: b), (m_rest m).
    repeat (rewrite <- app_assoc; cbn [app]). done.
  - apply mt_sound in Hm. unfold THREE_LINE_HEADER_RE in Hm.
    apply sep_sound in Hm as (S & s1 & -> & (w & d & w' & -> & _) & _).
    exists (str "<%" ++ w ++ d ++ w'), s1.
    repeat (rewrite <- app_assoc; cbn [app]). done.
  - unfold match_at, ASP_COMMENT_RE, lit at 1 in Hm.
    rewrite mt_literal in Hm.
    destruct (starts_with (str "<%--") s) eqn:Hs; [|done].
    apply starts_with_spec in Hs as (s1 & ->).
    rewrite drop_app_length in Hm. cbn [app mt] in Hm.
    apply rep_lazy_sound in Hm as (w & s2 & -> & _ & _ & Hm).
    unfold lit in Hm. rewrite mt_literal_end in Hm.
    destruct (starts_with (str "--%>") s2) eqn:Hs2; [|done].
    apply starts_with_spec in Hs2 as (s3 & ->).
    exists (str "<%--" ++ w ++ str "--"), s3.
    change (str "--%>") with (str "--" ++ str "%>").
    repeat (rewrite <- app_assoc; cbn [app]). done.
  - unfold match_at, ASP_SERVER_BLOCK_RE, lit at 1 in Hm.
    rewrite mt_literal in Hm.
    destruct (starts_with (str "<%") s) eqn:Hs; [|done].
    apply starts_with_spec in Hs as (s1 & ->).
    rewrite drop_app_length in Hm. cbn [app mt] in Hm.
    destruct s1 as [|c s1]; [done|].
    destruct (is_not 64 c); [|done].
    apply rep_lazy_sound in Hm as (w & s2 & -> & _ & _ & Hm).
    unfold lit in Hm. rewrite mt_literal_end in Hm.
    destruct (starts_with (str "%>") s2) eqn:Hs2; [|done].
    apply starts_with_spec in Hs2 as (s3 & ->).
    exists (str "<%" ++ c :: w), s3.
    repeat (rewrite <- app_assoc; cbn [app]). done.
Qed.

Lemma unclosed_at t : ∀ j,
  unclosed t = true →
  starts_with (str "%>") (drop j t) = false
  ∧ istarts (str "<asp:Content") (drop j t) = false
  ∧ istarts (str "</asp:Content>") (drop j t) = false.
Proof.
  induction t as [|c t IH]; intros j H.
  - by rewrite drop_nil.
  - cbn [unclosed] in H.
    apply andb_prop in H as [[[H1 H2]%andb_prop H3]%andb_prop H4].
    apply negb_true_iff in H1, H2, H3.
    destruct j as [|j]; [by rewrite drop_0|]. cbn [drop]. by apply IH.
Qed.

Lemma unclosed_unmatched r t :
  r ∈ REWRITE_PATTERNS → unclosed t = true → unmatched r t [].
Proof.
  intros Hr Ht j Hj. rewrite app_nil_r.
  destruct (unclosed_at t j Ht) as (Hc & Hs & He).
  revert Hr. unfold REWRITE_PATTERNS. rewrite !elem_of_cons, elem_of_nil.
  intros Hr.
  assert (r ∈ [PAGE_DIRECTIVE_RE; THREE_LINE_HEADER_RE; ASP_COMMENT_RE;
               ASP_SERVER_BLOCK_RE]
          ∨ r = ASP_CONTENT_START_RE ∨ r = ASP_CONTENT_END_RE)
    as [Hd | [-> | ->]] by in_list.
  - destruct (match_at r (drop j t)) as [m|] eqn:Hm; [exfalso|done].
    destruct (match_needs_closing _ _ _ Hd Hm) as (A & R & E).
    destruct (unclosed_at t (j + length A) Ht) as (Hc' & _).
    rewrite <- drop_drop, E, closing_occurs in Hc'. discriminate Hc'.
  - by apply starts_no_match_ilit.
  - unfold ASP_CONTENT_END_RE. rewrite <- (app_nil_r (ilit _)).
    by apply starts_no_match_ilit.
Qed.

(** X12: delimiters that are never closed.  Every pattern of the server
    delimiters ends with the closing delimiter, so a text that holds no
    closing delimiter and no content tag is changed by no step, whatever
    opening delimiters it holds: they stay in the body, and the title is
    the default. *)
Theorem unclosed_delimiters_stay t :
  unclosed t = true →
  rewrite_text t = t
  ∧ body_of t = strip t
  ∧ extract_title t = str "Untitled Page".
Proof.
  intros Hu.
  assert (rewrite_text t = t) as Hid.
  { apply rewrite_text_id. intros r Hr. by apply unclosed_unmatched. }
  split_and!; [done|by unfold body_of; rewrite Hid|].
  apply extract_title_none, unmatched_no_page, unclosed_unmatched; [in_list|done].
Qed.

Lemma unclosed_delimiters_stay_witness :
  body_of (str ("<p>a</p> <%@ Page Title=" ++ QT ++ "T" ++ QT
                ++ " <%-- note <% code "))
  = strip (str ("<p>a</p> <%@ Page Title=" ++ QT ++ "T" ++ QT
                ++ " <%-- note <% code ")).
Proof.
  refine (proj1 (proj2 (unclosed_delimiters_stay _ _))).
  vm_compute. reflexivity.
Defined.

(** * Output names *)

Lemma ends_with_spec sfx s :
  ends_with sfx s = true ↔ ∃ b, s = b ++ sfx.
Proof.
  unfold ends_with. rewrite starts_with_spec. split.
  - intros (r & E). exists (rev r).
    rewrite <- (rev_involutive s), E, rev_app_distr, rev_involutive. done.
  - intros (b & ->). exists (rev b). by rewrite rev_app_distr.
Qed.

Lemma rfind_app a u v i :
  rfind a v = Some i → rfind a (u ++ v) = Some (length u + i).
Proof. intros H. induction u as [|c u IH]; simpl; [done|]. by rewrite IH. Qed.

Lemma stem_aspx base :
  stem (base ++ str ".aspx") = if decide (base = []) then str ".aspx" else base.
Proof.
  unfold stem. rewrite (rfind_app _ base _ 0) by reflexivity.
  rewrite length_app. change (length (str ".aspx")) with 5.
  destruct base as [|c base]; [reflexivity|].
  destruct (decide (c :: base = [])) as [|_]; [done|].
  replace (0 <? length (c :: base) + 0)%nat with true
    by (symmetry; apply Nat.ltb_lt; simpl; lia).
  replace (length (c :: base) + 0 <? length (c :: base) + 5 - 1)%nat with true
    by (symmetry; apply Nat.ltb_lt; simpl; lia).
  simpl andb. cbv iota. rewrite Nat.add_0_r. by rewrite take_app_length.
Qed.

Lemma not_aspx_html x : ends_with (str ".aspx") (x ++ str ".html") = false.
Proof.
  apply not_true_iff_false. rewrite ends_with_spec. intros (b & E).
  apply (f_equal (@rev N)) in E. rewrite !rev_app_distr in E.
  vm_compute in E. discriminate E.
Qed.

Lemma aspx_name_collision n :
  ends_with (str ".aspx") n = true →
  (∃ base, n = base ++ str ".aspx"
     ∧ stem n ++ str ".html"
       = if decide (base = []) then str ".aspx.html" else base ++ str ".html")
  ∧ (∀ n', ends_with (str ".aspx") n' = true → n' ≠ n →
       stem n' ++ str ".html" = stem n ++ str ".html" →
       (n = str ".aspx" ∧ n' = str ".aspx.aspx")
       ∨ (n = str ".aspx.aspx" ∧ n' = str ".aspx")).
Proof.
  intros [base ->]%ends_with_spec. split.
  - exists base. split; [done|]. rewrite stem_aspx.
    destruct (decide _); [vm_compute|]; reflexivity.
  - intros n' [base' ->]%ends_with_spec Hne E.
    apply app_inv_tail in E. rewrite !stem_aspx in E.
    destruct (decide (base' = [])) as [->|H'], (decide (base = [])) as [->|H].
    + done.
    + subst base. right. split; reflexivity.
    + subst base'. left. split; reflexivity.
    + by subst.
Qed.

(** The output name of a matching name that does not begin with a dot is
    the one of no other matching name. *)
Lemma output_name_unique n n' :
  ends_with (str ".aspx") n = true → starts_with [46%N] n = false →
  ends_with (str ".aspx") n' = true →
  stem n' ++ str ".html" = stem n ++ str ".html" → n' = n.
Proof.
  intros Hn Hdot Hn' E. destruct (decide (n' = n)) as [|Hne]; [done|exfalso].
  destruct (proj2 (aspx_name_collision n Hn) n' Hn' Hne E) as [[-> _]|[-> _]];
    discriminate Hdot.
Qed.

(** X13: the name of the output.  A matching name that does not begin
    with a dot is a base followed by [.aspx], and its output name is the
    base followed by [.html]; no other matching name has the same output
    name.  The bare name [.aspx] has no suffix to drop: its output name is
    [.aspx.html], which is also the one of [.aspx.aspx]. *)
Theorem output_name_of_aspx n :
  ends_with (str ".aspx") n = true → starts_with [46%N] n = false →
  (∃ base, base ≠ [] ∧ n = base ++ str ".aspx"
     ∧ stem n ++ str ".html" = base ++ str ".html")
  ∧ (∀ n', ends_with (str ".aspx") n' = true →
       stem n' ++ str ".html" = stem n ++ str ".html" → n' = n)
  ∧ stem (str ".aspx") ++ str ".html" = str ".aspx.html"
  ∧ stem (str ".aspx.aspx") ++ str ".html" = str ".aspx.html".
Proof.
  intros Hn Hdot. split_and!.
  - destruct (proj1 (aspx_name_collision n Hn)) as (base & -> & E).
    exists base. destruct (decide (base = [])) as [->|Hb]; [discriminate Hdot|].
    done.
  - intros n' Hn' E. by apply output_name_unique.
  - reflexivity.
  - reflexivity.
Qed.

Lemma output_name_of_aspx_witness :
  ∃ base, base ≠ [] ∧ str "page.min.aspx" = base ++ str ".aspx"
     ∧ stem (str "page.min.aspx") ++ str ".html" = base ++ str ".html".
Proof.
  apply (proj1 (output_name_of_aspx (str "page.min.aspx") eq_refl eq_refl)).
Defined.

(** * One conversion *)

Lemma output_path_lookup fs f o :
  fs_lookup fs (output_path f o) = fs !! output_path f o.
Proof. done. Qed.



(** * The matching entries *)




(** * The loop over the matching entries *)








Lemma for_each_cons {A} (a : A) l (f : A → M unit) w :
  for_each (a :: l) f w =
    match f a w with
    | (inl e, w') => (inl e, w')
    | (inr _, w') => for_each l f w'
    end.
Proof. done. Qed.



(** * Making the output directory *)

Lemma nearest_lookup fs p e : fs_lookup fs p = Some e → nearest fs p = e.
Proof. destruct p as [|n d]; simpl; [by intros [= <-]|by intros ->]. Qed.

Lemma mkdir_parents_outcome fs : ∀ p,
  match nearest fs p with
  | Dir => ∃ fs', mkdir_parents p fs = inr fs' ∧ fs_lookup fs' p = Some Dir
  | File _ =>
      mkdir_parents p fs
      = inl (if is_file fs p then FileExistsError else NotADirectoryError)
  end.
Proof.
  induction p as [|n parent IH]; [by exists fs|].
  unfold is_file. cbn [nearest mkdir_parents fs_lookup].
  destruct (fs !! (n :: parent)) as [[|c]|] eqn:Hp.
  - exists fs. by rewrite Hp.
  - done.
  - destruct (fs_lookup fs parent) as [[|c]|] eqn:Hpar.
    + rewrite (nearest_lookup _ _ _ Hpar). eexists. split; [done|].
      apply lookup_insert_eq.
    + by rewrite (nearest_lookup _ _ _ Hpar).
    + destruct (nearest fs parent) as [|c].
      * destruct IH as (fs1 & -> & _). eexists. split; [done|].
        apply lookup_insert_eq.
      * rewrite IH. unfold is_file. by rewrite Hpar.
Qed.


(** * The run of [main] *)

Lemma main_past_guard w i o fs' :
  fs_lookup (w_fs w) i = Some Dir →
  mkdir_parents o (w_fs w) = inr fs' →
  main i o w =
    match aspx_files fs' i with
    | [] => (inr (), World fs' (w_out w ++ [NO_ASPX_FOUND]))
    | _ :: _ =>
        for_each (aspx_files fs' i) (λ f, convert_aspx_to_html f o)
          (World fs' (w_out w))
    end.
Proof.
  intros Hi Hmk.
  unfold main, mbind, M_bind, path_exists, is_dir, mkdir, glob_aspx, print.
  rewrite Hi. simpl. rewrite Hmk. simpl. by destruct (aspx_files fs' i).
Qed.

Lemma main_mkdir_failed w i o e :
  fs_lookup (w_fs w) i = Some Dir →
  mkdir_parents o (w_fs w) = inl e →
  main i o w = (inl e, w).
Proof.
  intros Hi Hmk.
  unfold main, mbind, M_bind, path_exists, is_dir, mkdir, glob_aspx, print.
  rewrite Hi. simpl. by rewrite Hmk.
Qed.







(** * What a run leaves alone *)

Lemma only_outputs_refl o w : only_outputs o w w.
Proof. split_and!; [done|by left|done]. Qed.

Lemma only_outputs_trans o w1 w2 w3 :
  only_outputs o w1 w2 → only_outputs o w2 w3 → only_outputs o w1 w3.
Proof.
  intros (D1 & F1 & P1) (D2 & F2 & P2). split_and!.
  - intros p Hp. by apply D2, D1.
  - intros p c Hp. destruct (F1 p c Hp) as [H|(n & c' & -> & H)].
    + by apply F2.
    + right. exists n. destruct (F2 _ _ H) as [H'|(n' & c'' & _ & H')]; eauto.
  - by etrans.
Qed.

Lemma convert_result w f o r w' :
  convert_aspx_to_html f o w = (r, w') →
  (r = inr ()
   ∧ ∃ t, is_directory (w_fs w) (output_path f o) = false
          ∧ w' = World (<[output_path f o := File (html_of t)]> (w_fs w))
                       (w_out w ++ [converted_line f o]))
  ∨ (∃ e, r = inl e ∧ w' = w).
Proof.
  unfold is_directory.
  change (fs_lookup (w_fs w) (output_path f o))
    with (w_fs w !! output_path f o).
  unfold convert_aspx_to_html, mbind, M_bind, read_text, write_text, print.
  fold (output_path f o). fold (converted_line f o).
  destruct (fs_lookup (w_fs w) f) as [[|t]|];
    try (intros [= <- <-]; right; by eexists).
  destruct (fs_lookup (w_fs w) o) as [[|c]|];
    destruct (w_fs w !! output_path f o) as [[|c']|]; simpl;
    intros [= <- <-]; try (right; by eexists); left; split; try done;
    by exists t.
Qed.

Lemma convert_only_outputs w f o :
  only_outputs o w (convert_aspx_to_html f o w).2.
Proof.
  destruct (convert_aspx_to_html f o w) as [r w'] eqn:E.
  destruct (convert_result _ _ _ _ _ E) as [(_ & t & Hd & ->)|(e & _ & ->)];
    [|apply only_outputs_refl].
  unfold is_directory in Hd.
  change (fs_lookup (w_fs w) (output_path f o))
    with (w_fs w !! output_path f o) in Hd.
  cbn [snd]. split_and!; cbn [w_fs w_out].
  - intros p Hp. rewrite lookup_insert_ne; [done|]. intros <-.
    by rewrite Hp in Hd.
  - intros p c Hp. destruct (decide (p = output_path f o)) as [->|Hne].
    + right. exists (stem (path_name f)). eexists. split; [done|].
      apply lookup_insert_eq.
    + left. by rewrite lookup_insert_ne.
  - by apply prefix_app_r.
Qed.

Lemma for_each_only_outputs o : ∀ l w,
  only_outputs o w (for_each l (λ f, convert_aspx_to_html f o) w).2.
Proof.
  induction l as [|a l IH]; intros w; [apply only_outputs_refl|].
  rewrite for_each_cons. pose proof (convert_only_outputs w a o) as Ha.
  destruct (convert_aspx_to_html a o w) as [[e|[]] w1]; [done|].
  eapply only_outputs_trans; [exact Ha|apply IH].
Qed.

Lemma main_guard_failed w i o :
  fs_lookup (w_fs w) i ≠ Some Dir →
  main i o w = (inl (ValueError (BAD_INPUT_DIR ++ path_str i)), w).
Proof.
  intros Hi. unfold main, mbind, M_bind, path_exists, is_dir, raise.
  destruct (fs_lookup (w_fs w) i) as [[|c]|]; done.
Qed.

Lemma main_only_outputs w i o : only_outputs o w (main i o w).2.
Proof.
  destruct (fs_lookup (w_fs w) i) as [[|c]|] eqn:Hi.
  2,3: rewrite main_guard_failed by congruence; apply only_outputs_refl.
  destruct (mkdir_parents o (w_fs w)) as [e|fs'] eqn:Hmk.
  { rewrite (main_mkdir_failed _ _ _ e) by done. apply only_outputs_refl. }
  rewrite (main_past_guard _ _ _ fs') by done.
  destruct (mkdir_parents_keeps _ _ _ Hmk) as [Hf Hd].
  assert (only_outputs o w (World fs' (w_out w))) as Hmade.
  { split_and!; [done| |done]. intros p c Hp. left. by apply Hf. }
  destruct (aspx_files fs' i) as [|a l] eqn:El.
  - destruct Hmade as (D & F & _). split_and!; [done|done|].
    by apply prefix_app_r.
  - eapply only_outputs_trans; [exact Hmade|apply for_each_only_outputs].
Qed.

(** X16: what no run of [main] does, whether it returns or raises.  No
    entry is removed; a directory stays a directory; a file keeps its
    text unless it is a file of the output directory with a name in
    [.html], which may be written anew; the lines printed before stay.  So
    a file with a name in [.aspx] is never changed, even when the output
    directory is the input directory. *)
Theorem main_only_writes_outputs w i o :
  only_outputs o w (main i o w).2
  ∧ (∀ p c, w_fs w !! p = Some (File c) →
       ends_with (str ".aspx") (path_name p) = true →
       w_fs (main i o w).2 !! p = Some (File c)).
Proof.
  pose proof (main_only_outputs w i o) as H. split; [done|].
  intros p c Hp Hn. destruct H as (_ & F & _).
  destruct (F p c Hp) as [H|(n & c' & -> & _)]; [done|].
  change (path_name ((n ++ str ".html") :: o)) with (n ++ str ".html") in Hn.
  by rewrite not_aspx_html in Hn.
Qed.

(** X17: the output directory.  When the output path is a regular file,
    [main] raises [FileExistsError]; when the path is missing and its
    nearest existing ancestor is a regular file, [NotADirectoryError]; in
    both cases nothing is made, written or printed.  Otherwise the path and
    its missing ancestors are made, and the output directory is there when
    [main] ends, also when a conversion raises. *)
Theorem main_output_dir_errors w i o :
  fs_lookup (w_fs w) i = Some Dir →
  (∀ c, nearest (w_fs w) o = File c →
     main i o w =
       (inl (if is_file (w_fs w) o then FileExistsError
             else NotADirectoryError), w))
  ∧ (nearest (w_fs w) o = Dir →
       (∃ fs', mkdir_parents o (w_fs w) = inr fs')
       ∧ is_directory (w_fs (main i o w).2) o = true).
Proof.
  intros Hi. pose proof (mkdir_parents_outcome (w_fs w) o) as Ho. split.
  - intros c Hc. rewrite Hc in Ho. by apply main_mkdir_failed.
  - intros Hd. rewrite Hd in Ho. destruct Ho as (fs' & Hmk & Hdir).
    split; [by exists fs'|]. unfold is_directory.
    destruct o as [|n d]; [done|].
    assert (only_outputs (n :: d) (World fs' (w_out w)) (main i (n :: d) w).2)
      as (D & _).
    { rewrite (main_past_guard _ _ _ fs') by done.
      destruct (aspx_files fs' i) as [|a l] eqn:El.
      - split_and!; [done|by left|by apply prefix_app_r].
      - apply for_each_only_outputs. }
    simpl. by rewrite (D (n :: d) Hdir).
Qed.

Lemma main_output_dir_errors_witness :
  main [str "in"] [str "html"; str "out"]
    (World (<[ [str "out"] := File (str "x") ]> (<[ [str "in"] := Dir ]> ∅)) [])
  = (inl NotADirectoryError,
     World (<[ [str "out"] := File (str "x") ]> (<[ [str "in"] := Dir ]> ∅)) []).
Proof.
  refine (proj1 (main_output_dir_errors _ _ _ _) (str "x") _).
  - vm_compute. reflexivity.
  - vm_compute. reflexivity.
Defined.


(** * A run that fails *)




